(** * screen-checker: locating a screen in a photo and scoring its colour

    A shallow embedding of [src/screen_checker.py] and of its older
    variant [src/main.py].

    The image-processing work is done by OpenCV, imutils, colour-science,
    opencv_utils and tesseract; they are the external collaborators of
    the two files and appear here as the fields of one record, [Prims].
    What the two Python files themselves decide (which colour is
    refused, which channel is segmented, which contours are dropped,
    which contour is kept, when an exception is raised, what is cropped)
    is written out.

    Numbers: an 8-bit channel is a [Z]; a Python or NumPy float is the
    rational it denotes ([Q]), so comparisons are exact and the rounding
    of float products is not modelled. *)

From Stdlib Require Import String List ZArith QArith Qabs Bool Lia Arith.
From Stdlib Require Import DecimalString.
Import ListNotations.

Local Open Scope string_scope.
Local Open Scope list_scope.
Local Open Scope Z_scope.

Set Implicit Arguments.

(** ** Exceptions *)

(** Python exceptions, by class and message.  Both source files raise
    [ValueError] only; the built-in [max] and [numpy.max] raise it too,
    with messages of their own.  [cv2_error f] is the [cv2.error] with
    which the OpenCV function [f] rejects an array without elements. *)
Inductive exn : Type :=
| ValueError (msg : string)
| IndexError (msg : string)
| TypeError (msg : string)
| cv2_error (func : string).

Inductive result (A : Type) : Type :=
| Ok (a : A)
| Raise (e : exn).

Arguments Ok {A} a.
Arguments Raise {A} e.

Definition bind {A B : Type} (m : result A) (k : A -> result B) : result B :=
  match m with
  | Ok a => k a
  | Raise e => Raise e
  end.

Notation "x <- m ;; k" := (bind m (fun x => k))
  (at level 61, m at next level, right associativity).

Definition is_ok {A : Type} (m : result A) : bool :=
  match m with Ok _ => true | Raise _ => false end.

(** The three errors of the specification's taxonomy, as the source
    raises them. *)
Definition InvalidColorError : exn :=
  ValueError "Cannot find a black screen from a photo.".
Definition MultipleContoursError : exn :=
  ValueError "Multiple contours found.".
Definition ScreenNotFoundError : exn :=
  ValueError "Cannot find the screen.".

(** What the interpreter raises for [max] of an empty iterable and what
    NumPy raises for [np.max] of an array without elements. *)
Definition MaxEmptyError : exn :=
  ValueError "max() arg is an empty sequence".
Definition ZeroSizeReductionError : exn :=
  ValueError "zero-size array to reduction operation maximum which has no identity".

(** ** Data *)

Inductive Color : Type := BLUE | GREEN | RED | WHITE | BLACK.

Definition value (c : Color) : Z :=
  match c with
  | BLUE => 0 | GREEN => 1 | RED => 2 | WHITE => 3 | BLACK => 4
  end.

Definition Color_eq_dec (a b : Color) : {a = b} + {a <> b}.
Proof. decide equality. Defined.

(** [a is b] on two members of the enumeration. *)
Definition Color_is (a b : Color) : bool :=
  if Color_eq_dec a b then true else false.

Inductive DeltaEMethod : Type :=
| CIE_1976 | CIE_1994 | CIE_2000 | CMC
| CAM02_LCD | CAM02_SCD | CAM02_UCS
| CAM16_LCD | CAM16_SCD | CAM16_UCS
| DIN99.

(** A pixel in OpenCV's channel order: blue, green, red. *)
Definition triple (A : Type) : Type := (A * A * A)%type.
Definition pixel : Type := triple Z.
Definition fpixel : Type := triple Q.

(** A two-dimensional array: the list of its rows. *)
Definition image (A : Type) : Type := list (list A).
Definition Photo : Type := image pixel.

Definition point : Type := (Z * Z)%type.
Definition contour : Type := list point.

Definition height {A : Type} (img : image A) : nat := length img.

(** [shape h w img]: the array has [h] rows of [w] elements each. *)
Definition shape {A : Type} (h w : nat) (img : image A) : Prop :=
  length img = h /\ Forall (fun row => length row = w) img.

Definition pixels {A : Type} (img : image A) : list A := concat img.

Definition map2d {A B : Type} (f : A -> B) (img : image A) : image B :=
  map (map f) img.

(** *** Python slicing *)

(** A slice bound [i] on a sequence of length [n]: a negative bound
    counts from the end, and the result is clipped to [0..n]. *)
Definition slice_bound (n i : Z) : Z :=
  let i := if i <? 0 then i + n else i in
  Z.max 0 (Z.min n i).

(** [l[start:stop]]. *)
Definition py_slice {A : Type} (start stop : Z) (l : list A) : list A :=
  let n := Z.of_nat (length l) in
  let s := slice_bound n start in
  let e := slice_bound n stop in
  firstn (Z.to_nat (e - s)) (skipn (Z.to_nat s) l).

(** [img[r0:r1, c0:c1]]. *)
Definition crop {A : Type} (r0 r1 c0 c1 : Z) (img : image A) : image A :=
  map (py_slice c0 c1) (py_slice r0 r1 img).

(** [photo[..., k]]: one channel of a three-channel array.  NumPy checks
    [k] against the size of the last axis, 3, whatever the other axes. *)
Definition channel_of (k : Z) (p : pixel) : Z :=
  let '(b, g, r) := p in
  if k =? 0 then b else if k =? 1 then g else r.

Definition index_last (photo : Photo) (k : Z) : result (image Z) :=
  if (k <? -3) || (3 <=? k) then
    Raise (IndexError "index is out of bounds for axis 2 with size 3")
  else
    let k := if k <? 0 then k + 3 else k in
    Ok (map2d (channel_of k) photo).

(** *** The built-in [max] with a key, and [np.max] *)

Definition Qgtb (a b : Q) : bool := negb (Qle_bool a b).

(** [max(l, key=key)]: the first element whose key is not exceeded by a
    later one. *)
Fixpoint max_from {A : Type} (key : A -> Q) (best : A) (l : list A) : A :=
  match l with
  | [] => best
  | x :: l' => max_from key (if Qgtb (key x) (key best) then x else best) l'
  end.

Definition py_max {A : Type} (key : A -> Q) (l : list A) : result A :=
  match l with
  | [] => Raise MaxEmptyError
  | x :: l' => Ok (max_from key x l')
  end.

(** [np.max(a)]: the largest element of the whole array. *)
Definition np_max (a : image Q) : result Q :=
  match pixels a with
  | [] => Raise ZeroSizeReductionError
  | x :: l => Ok (max_from (fun q => q) x l)
  end.

(** [cv2.cvtColor(src, code)] where the conversion [code] does [f] to
    each pixel: OpenCV asserts that [src] has an element and raises
    [cv2.error] when it has none. *)
Definition cvtColor {A B : Type} (f : A -> B) (src : image A)
  : result (image B) :=
  match pixels src with
  | [] => Raise (cv2_error "cvtColor")
  | _ :: _ => Ok (map2d f src)
  end.

(** *** 32-bit integers, [np.roll], [np.dot] *)

(** The value an [int32] holds after an operation whose exact result
    is [z]. *)
Definition wrap32 (z : Z) : Z := (z + 2 ^ 31) mod 2 ^ 32 - 2 ^ 31.

Definition int32 (z : Z) : Prop := - 2 ^ 31 <= z < 2 ^ 31.

(** [np.roll(a, 1)]: the last element comes first. *)
Definition roll1 {A : Type} (l : list A) : list A :=
  match rev l with
  | [] => []
  | x :: r => x :: rev r
  end.

(** [np.dot(a, b)] of two [int32] vectors of one length: the products
    are accumulated in an [int32]. *)
Definition dot32 (a b : list Z) : Z :=
  fold_left (fun acc ab => wrap32 (acc + wrap32 (fst ab * snd ab)))
    (combine a b) 0.

(** [np.abs] of an [int32]. *)
Definition abs32 (z : Z) : Z := wrap32 (Z.abs z).

(** A comprehension whose body may raise: the elements in order, up to
    the first exception. *)
Fixpoint mapM {A B : Type} (f : A -> result B) (l : list A)
  : result (list B) :=
  match l with
  | [] => Ok []
  | x :: l' => y <- f x ;; ys <- mapM f l' ;; Ok (y :: ys)
  end.

Definition show_nat (n : nat) : string :=
  NilZero.string_of_uint (Nat.to_uint n).

(** [a[i]] on the first axis, for an index that is not negative. *)
Definition index_first {A : Type} (a : list A) (i : Z) : result A :=
  match nth_error a (Z.to_nat i) with
  | Some x => Ok x
  | None =>
      Raise (IndexError
               ("index " ++ show_nat (Z.to_nat i)
                ++ " is out of bounds for axis 0 with size "
                ++ show_nat (length a)))
  end.

(** ** The external collaborators *)

(** One field per library call of the two source files, with the
    constant arguments of the call fixed as the source fixes them.  The
    colour conversions of [check_screen] are given per pixel and go
    through [cvtColor], which raises on an array without elements.  The
    calls on whole arrays ([cvtColor_BGR2GRAY], [threshold_otsu],
    [findContours], [boundingRect], [copyMakeBorder],
    [image_to_string]) are taken to return: what is proved of
    [find_screen] and [ocr_ssd] is about the calls in which they do. *)
Record Prims : Type := {
  (** [cv2.cvtColor(photo, cv2.COLOR_BGR2GRAY)] *)
  cvtColor_BGR2GRAY : image pixel -> image Z;
  (** [cv2.threshold(gray, None, 255, cv2.THRESH_OTSU)[1]] *)
  threshold_otsu : image Z -> image Z;
  (** [grab_contours(cv2.findContours(binary, cv2.RETR_LIST,
      cv2.CHAIN_APPROX_SIMPLE))] *)
  findContours : image Z -> list contour;
  (** [cv2.contourArea(c)] *)
  contourArea : contour -> Q;
  (** [cv2.arcLength(c, closed)] *)
  arcLength : contour -> bool -> Q;
  (** [cv2.approxPolyDP(c, epsilon, closed)] *)
  approxPolyDP : contour -> Q -> bool -> contour;
  (** [four_point_transform(photo, corners)]; it raises on malformed
      corners. *)
  four_point_transform : image pixel -> contour -> result (image pixel);
  (** [cv2.cvtColor(a, cv2.COLOR_BGR2LAB)] on a float32 array, one pixel
      at a time *)
  BGR2LAB_f32 : fpixel -> fpixel;
  (** [cvt_single_color(c, cv2.COLOR_BGR2LAB, np.float32)] *)
  cvt_single_color_f32 : triple Z -> fpixel;
  (** [delta_E(a, b, method=method)] on one pair of colours *)
  delta_E : DeltaEMethod -> fpixel -> fpixel -> Q;
  (** [cv2.boundingRect(binary)]: x, y, w, h *)
  boundingRect : image Z -> (Z * Z * Z * Z);
  (** [cv2.copyMakeBorder(a, top, bottom, left, right,
      cv2.BORDER_CONSTANT, value=(0, 0, 0))] *)
  copyMakeBorder : image Z -> Z -> Z -> Z -> Z -> image Z;
  (** [image_to_string(Image.fromarray(a), lang, config)] *)
  image_to_string : image Z -> string -> string -> string;
  (** [s.strip()] *)
  strip : string -> string;
  (** 8-bit conversions of the older variant:
      [cv2.COLOR_BGR2HSV], [cv2.COLOR_HSV2BGR], [cv2.COLOR_BGR2LAB],
      [cvt_single_color(c, cv2.COLOR_BGR2LAB)] and [delta_E(a, b)] *)
  BGR2HSV_u8 : pixel -> pixel;
  HSV2BGR_u8 : pixel -> pixel;
  BGR2LAB_u8 : pixel -> pixel;
  cvt_single_color_u8 : triple Z -> pixel;
  delta_E_u8 : pixel -> pixel -> Q
}.

(** ** [src/screen_checker.py] *)

Module screen_checker.

Definition _color2bgr (c : Color) : triple Z :=
  match c with
  | BLUE => (1, 0, 0)
  | GREEN => (0, 1, 0)
  | RED => (0, 0, 1)
  | WHITE => (1, 1, 1)
  | BLACK => (0, 0, 0)
  end.

(** The default of [find_screen]'s [strict] and of [check_screen]'s
    [method]. *)
Definition strict_default : bool := false.
Definition method_default : DeltaEMethod := CIE_2000.

Section Functions.

Variable cv : Prims.

(** Lines 49-53: the single-channel map that is thresholded. *)
Definition segmentation (photo : Photo) (color : Color) : result (image Z) :=
  if Color_is color WHITE then Ok (cvtColor_BGR2GRAY cv photo)
  else index_last photo (value color).

(** Line 60: the noise floor. *)
Definition above_noise_floor (c : contour) : bool :=
  Qgtb (contourArea cv c) 4.

(** Lines 70-72. *)
Definition approximate (screen_contour : contour) : contour :=
  approxPolyDP cv screen_contour
    (Qmult 0.01 (arcLength cv screen_contour true)) true.

(** Lines 37-87.  The visualisation under [if debug:] is left out:
    [debug] is [False]. *)
Definition find_screen (photo : Photo) (color : Color) (strict : bool)
  : result contour :=
  if Color_is color BLACK then Raise InvalidColorError else
  gray <- segmentation photo color ;;
  let binary := threshold_otsu cv gray in
  let contours := findContours cv binary in
  let contours := filter above_noise_floor contours in
  if strict && (1 <? Z.of_nat (length contours)) then
    Raise MultipleContoursError
  else
  screen_contour <- py_max (contourArea cv) contours ;;
  let approx := approximate screen_contour in
  if negb (Z.of_nat (length approx) =? 4) then Raise ScreenNotFoundError
  else Ok approx.

(** Line 144: [cropped.astype(np.float32) / 255]. *)
Definition to_unit (p : pixel) : fpixel :=
  let '(b, g, r) := p in
  (Qdiv (inject_Z b) 255, Qdiv (inject_Z g) 255, Qdiv (inject_Z r) 255).

(** Lines 144-146: the deviation of one pixel of the cropped view. *)
Definition deviation (color : Color) (method : DeltaEMethod) (p : pixel) : Q :=
  delta_E cv method (BGR2LAB_f32 cv (to_unit p))
    (cvt_single_color_f32 cv (_color2bgr color)).

(** Lines 112-160.  The cropped view has no element when the rectified
    image is too small, and [cv2.cvtColor] of line 144 then raises. *)
Definition check_screen (photo : Photo) (color : Color) (corners : contour)
    (method : DeltaEMethod) : result Q :=
  warped <- four_point_transform cv photo corners ;;
  let cropped := crop 16 (-16) 16 (-16) warped in
  lab <- cvtColor (BGR2LAB_f32 cv) (map2d to_unit cropped) ;;
  let expected := cvt_single_color_f32 cv (_color2bgr color) in
  let delta_e := map2d (fun x => delta_E cv method x expected) lab in
  np_max delta_e.

(** A call of [check_screen] as it is written: with the keyword
    [method], or without it, in which case line 128 supplies the
    default. *)
Definition check_screen_call (photo : Photo) (color : Color)
    (corners : contour) (method : option DeltaEMethod) : result Q :=
  check_screen photo color corners
    (match method with
     | Some m => m
     | None => method_default
     end).

(** Lines 177-196: what [ocr_ssd] does to the rectified image before it
    is handed to tesseract. *)
Definition border_width : Z := 10.

Definition prepare (warped : image pixel) : image Z :=
  let gray := cvtColor_BGR2GRAY cv warped in
  let binary := threshold_otsu cv gray in
  let '(x, y, w, h) := boundingRect cv binary in
  let cropped := crop y (y + h) x (x + w) binary in
  copyMakeBorder cv cropped border_width border_width border_width border_width.

(** Lines 163-207. *)
Definition ocr_ssd (photo : Photo) : result string :=
  corners <- find_screen photo WHITE strict_default ;;
  warped <- four_point_transform cv photo corners ;;
  Ok (strip cv (image_to_string cv (prepare warped) "lets" "--psm 8")).

End Functions.

(** Lines 90-97.  [corners] is an array of [int32] points, as
    [find_screen] returns it; [norm] stands for [np.linalg.norm] on a
    vector of two components. *)
Definition side (norm : point -> Q) (corners : contour) (i : Z) : result Q :=
  a <- index_first corners i ;;
  b <- index_first corners ((i + 1) mod 4) ;;
  Ok (norm (wrap32 (fst a - fst b), wrap32 (snd a - snd b))).

Definition get_lengths (norm : point -> Q) (corners : contour)
  : result (list Q) :=
  mapM (side norm corners) [0; 1; 2; 3].

(** Lines 100-109. *)
Definition get_size (corner : contour) : Q :=
  let x := map fst corner in
  let y := map snd corner in
  Qmult 0.5
    (inject_Z
       (abs32 (wrap32 (dot32 x (roll1 y) - dot32 y (roll1 x))))).

End screen_checker.

(** ** [src/main.py], the older variant *)

Module main.

Definition color2bgr (c : Color) : triple Z :=
  match c with
  | BLUE => (255, 0, 0)
  | GREEN => (0, 255, 0)
  | RED => (0, 0, 255)
  | WHITE => (255, 255, 255)
  | BLACK => (0, 0, 0)
  end.

(** [np.max] of an 8-bit array. *)
Definition np_max_u8 (a : image Z) : result Z :=
  match pixels a with
  | [] => Raise ZeroSizeReductionError
  | x :: l => Ok (fold_left Z.max l x)
  end.

(** [hsv[:, :, 2] += c] on one pixel of an 8-bit array. *)
Definition add_to_V (c : Z) (p : pixel) : pixel :=
  let '(h, s, v) := p in (h, s, (v + c) mod 256).

Section Functions.

Variable cv : Prims.

(** Lines 32-78.  The calls to [show] under [if __debug__:] only
    display images and are left out. *)
Definition find_screen (photo : Photo) (color : Color) : result contour :=
  if Color_is color BLACK then Raise InvalidColorError else
  gray <- (if Color_is color WHITE then Ok (cvtColor_BGR2GRAY cv photo)
           else index_last photo (value color)) ;;
  let binary := threshold_otsu cv gray in
  let contours := findContours cv binary in
  screen_contour <- py_max (contourArea cv) contours ;;
  let approx :=
    approxPolyDP cv screen_contour
      (Qmult 0.01 (arcLength cv screen_contour true)) true in
  if negb (Z.of_nat (length approx) =? 4) then Raise ScreenNotFoundError
  else Ok approx.

(** Lines 94-99: the brightness is raised unless the colour is black. *)
Definition brighten (color : Color) (cropped : image pixel)
  : result (image pixel) :=
  if negb (Color_is color BLACK) then
    hsv <- cvtColor (BGR2HSV_u8 cv) cropped ;;
    m <- np_max_u8 (map2d (channel_of 2) hsv) ;;
    let hsv := map2d (add_to_V (255 - m)) hsv in
    cvtColor (HSV2BGR_u8 cv) hsv
  else Ok cropped.

(** Lines 81-119. *)
Definition check_screen (photo : Photo) (color : Color) (corners : contour)
  : result Q :=
  warped <- four_point_transform cv photo corners ;;
  let cropped := crop 16 (-16) 16 (-16) warped in
  bgr <- brighten color cropped ;;
  lab <- cvtColor (BGR2LAB_u8 cv) bgr ;;
  let expected := cvt_single_color_u8 cv (color2bgr color) in
  let delta_e := map2d (fun x => delta_E_u8 cv x expected) lab in
  np_max delta_e.

End Functions.

End main.

(** ** The stages of [screen_checker.find_screen], named *)

Section Stages.

Variable cv : Prims.

(** The contours that are left after line 60. *)
Definition surviving_contours (photo : Photo) (color : Color)
  : result (list contour) :=
  gray <- screen_checker.segmentation cv photo color ;;
  Ok (filter (screen_checker.above_noise_floor cv)
        (findContours cv (threshold_otsu cv gray))).

(** Lines 63-87, from the filtered contours on. *)
Definition select (strict : bool) (contours : list contour) : result contour :=
  if strict && (1 <? Z.of_nat (length contours)) then
    Raise MultipleContoursError
  else
  screen_contour <- py_max (contourArea cv) contours ;;
  let approx := screen_checker.approximate cv screen_contour in
  if negb (Z.of_nat (length approx) =? 4) then Raise ScreenNotFoundError
  else Ok approx.

(** Lines 171-172 of [ocr_ssd]: the image that line 178 converts to
    grayscale. *)
Definition rectified (photo : Photo) : result (image pixel) :=
  corners <- screen_checker.find_screen cv photo WHITE
               screen_checker.strict_default ;;
  four_point_transform cv photo corners.

(** The array of line 146 of [check_screen], for a rectified image
    [warped]. *)
Definition deviations (color : Color) (method : DeltaEMethod)
    (warped : image pixel) : image Q :=
  map2d (screen_checker.deviation cv color method)
    (crop 16 (-16) 16 (-16) warped).

End Stages.

(** Follows the specification's words, section 4.3: the four-point
    transform followed by the 16-pixel trim on all four sides. *)
Definition rectify_spec (cv : Prims) (photo : Photo) (corners : contour)
  : result (image pixel) :=
  warped <- four_point_transform cv photo corners ;;
  Ok (crop 16 (-16) 16 (-16) warped).

(** Follows the specification's words, section 4.5, steps 1 and 2. *)
Definition readDisplay_rectified_spec (cv : Prims) (photo : Photo)
  : result (image pixel) :=
  corners <- screen_checker.find_screen cv photo WHITE false ;;
  rectify_spec cv photo corners.

(** [a[i][j]]. *)
Definition at2 {A : Type} (img : image A) (i j : nat) : option A :=
  match nth_error img i with
  | Some row => nth_error row j
  | None => None
  end.

(** ** Exact arithmetic, to compare with *)

(** The sum of products without the 32-bit wrap-around. *)
Definition dot (a b : list Z) : Z :=
  fold_left (fun acc ab => acc + fst ab * snd ab) (combine a b) 0.

(** What line 109 of [get_size] computes under the absolute value when
    nothing overflows: twice the signed area of the polygon. *)
Definition cross (corner : contour) : Z :=
  dot (map fst corner) (roll1 (map snd corner))
  - dot (map snd corner) (roll1 (map fst corner)).

(** [a - b] on two [int32] points, line 97. *)
Definition difference (a b : point) : point :=
  (wrap32 (fst a - fst b), wrap32 (snd a - snd b)).

Definition list_sum_Z (l : list Z) : Z := fold_right Z.add 0 l.

(** The same polygon, moved by [(dx, dy)]. *)
Definition translate (dx dy : Z) (corner : contour) : contour :=
  map (fun p => (fst p + dx, snd p + dy)) corner.

(** The same polygon, starting from its second vertex. *)
Definition rotate1 {A : Type} (l : list A) : list A :=
  match l with
  | [] => []
  | x :: r => r ++ [x]
  end.

(** The pixel that lines 97-99 of the older [check_screen] make of a
    pixel [p] of the cropped view, [m] being the largest value channel. *)
Definition brightened (cv : Prims) (m : Z) (p : pixel) : pixel :=
  HSV2BGR_u8 cv (main.add_to_V (255 - m) (BGR2HSV_u8 cv p)).

(** The pixel that is scored by the older [check_screen]: brightened
    unless the colour is black. *)
Definition normalised (cv : Prims) (color : Color) (m : Z) (p : pixel)
  : pixel :=
  if negb (Color_is color BLACK) then brightened cv m p else p.

(** Lines 102-104 of the older [check_screen] on one pixel. *)
Definition deviation_u8 (cv : Prims) (color : Color) (p : pixel) : Q :=
  delta_E_u8 cv (BGR2LAB_u8 cv p)
    (cvt_single_color_u8 cv (main.color2bgr color)).

(** ** The same functions over a store of arrays

    A NumPy array is an object: a name may denote a buffer of its own or
    a view on the buffer of another array, and [+=] on a view writes
    into that buffer.  Here the arrays live in a store; a library call
    reads its arguments through their views and puts its result in a new
    cell, a slice of the source makes a view on the cell it slices, and
    the one in-place statement of the source, line 98 of [main.py],
    overwrites a cell. *)

Module Store.

Inductive ndarray : Type :=
| U8x3 (a : image pixel)
| U8 (a : image Z)
| F32x3 (a : image fpixel)
| F64 (a : image Q).

Definition loc : Type := nat.
Definition heap : Type := list ndarray.

Inductive step : Type :=
| Crop (r0 r1 c0 c1 : Z)
| Channel (k : Z).

(** A name bound to an array: the cell that holds the buffer and the
    slices taken on it, outermost first. *)
Record ref : Type := { base : loc; window : list step }.

Definition whole (l : loc) : ref := {| base := l; window := [] |}.

Definition slice (r : ref) (s : step) : ref :=
  {| base := base r; window := window r ++ [s] |}.

Definition view_step (s : step) (a : ndarray) : result ndarray :=
  match s, a with
  | Crop r0 r1 c0 c1, U8x3 a => Ok (U8x3 (crop r0 r1 c0 c1 a))
  | Crop r0 r1 c0 c1, U8 a => Ok (U8 (crop r0 r1 c0 c1 a))
  | Crop r0 r1 c0 c1, F32x3 a => Ok (F32x3 (crop r0 r1 c0 c1 a))
  | Crop r0 r1 c0 c1, F64 a => Ok (F64 (crop r0 r1 c0 c1 a))
  | Channel k, U8x3 a => a' <- index_last a k ;; Ok (U8 a')
  | Channel k, _ => Raise (IndexError "too many indices for array")
  end.

Fixpoint view_through (w : list step) (a : ndarray) : result ndarray :=
  match w with
  | [] => Ok a
  | s :: w' => a' <- view_step s a ;; view_through w' a'
  end.

(** Computations on the store; an exception leaves the store as it was
    when it was raised. *)
Definition M (A : Type) : Type := heap -> result A * heap.

Definition ret {A : Type} (a : A) : M A := fun h => (Ok a, h).

Definition raise {A : Type} (e : exn) : M A := fun h => (Raise e, h).

Definition bindM {A B : Type} (m : M A) (k : A -> M B) : M B :=
  fun h =>
    match m h with
    | (Ok a, h') => k a h'
    | (Raise e, h') => (Raise e, h')
    end.

Definition lift {A : Type} (m : result A) : M A := fun h => (m, h).

Definition alloc (a : ndarray) : M loc :=
  fun h => (Ok (length h), h ++ [a]).

Definition load (r : ref) : M ndarray :=
  fun h =>
    match nth_error h (base r) with
    | Some a => (view_through (window r) a, h)
    | None => (Raise (TypeError "not an array"), h)
    end.

Definition update {A : Type} (i : nat) (x : A) (l : list A) : list A :=
  firstn i l ++ x :: skipn (S i) l.

(** [a[:, :, 2] += c] where [a] is the 8-bit three-channel array in
    cell [l]. *)
Definition iadd_V (l : loc) (c : Z) : M unit :=
  fun h =>
    match nth_error h l with
    | Some (U8x3 a) => (Ok tt, update l (U8x3 (map2d (main.add_to_V c) a)) h)
    | _ => (Raise (TypeError "not an 8-bit three-channel array"), h)
    end.

(** [framed n h h']: the first [n] cells of [h] are in [h'] as they were. *)
Definition framed (n : nat) (h h' : heap) : Prop :=
  (n <= length h')%nat /\ firstn n h' = firstn n h.

(** [frames n m Q]: run on a store of at least [n] cells, [m] leaves the
    first [n] of them as they were, and what it returns satisfies [Q]. *)
Definition frames {A : Type} (n : nat) (m : M A) (Q : A -> Prop) : Prop :=
  forall h,
    (n <= length h)%nat ->
    framed n h (snd (m h)) /\
    match fst (m h) with
    | Ok a => Q a
    | Raise _ => True
    end.

End Store.

Notation "x <~ m ;; k" := (Store.bindM m (fun x => k))
  (at level 61, m at next level, right associativity).

Module StoreOps.
Import Store.

Definition bad_type {A : Type} : M A :=
  raise (TypeError "unsupported array type").

Definition load_u8x3 (r : ref) : M (image pixel) :=
  a <~ load r ;; match a with U8x3 a => ret a | _ => bad_type end.

Definition load_u8 (r : ref) : M (image Z) :=
  a <~ load r ;; match a with U8 a => ret a | _ => bad_type end.

Definition load_f32x3 (r : ref) : M (image fpixel) :=
  a <~ load r ;; match a with F32x3 a => ret a | _ => bad_type end.

Definition load_f64 (r : ref) : M (image Q) :=
  a <~ load r ;; match a with F64 a => ret a | _ => bad_type end.

Section Calls.

Variable cv : Prims.

(** The library calls: each reads its argument and returns a new array. *)
Definition call_cvtColor_BGR2GRAY (src : ref) : M loc :=
  a <~ load_u8x3 src ;; alloc (U8 (cvtColor_BGR2GRAY cv a)).

Definition call_threshold_otsu (src : ref) : M loc :=
  a <~ load_u8 src ;; alloc (U8 (threshold_otsu cv a)).

Definition call_findContours (src : ref) : M (list contour) :=
  a <~ load_u8 src ;; ret (findContours cv a).

Definition call_four_point_transform (src : ref) (corners : contour) : M loc :=
  a <~ load_u8x3 src ;;
  warped <~ lift (four_point_transform cv a corners) ;;
  alloc (U8x3 warped).

(** [cv2.cvtColor] between two 8-bit three-channel formats. *)
Definition call_cvtColor_u8 (f : pixel -> pixel) (src : ref) : M loc :=
  a <~ load_u8x3 src ;; b <~ lift (cvtColor f a) ;; alloc (U8x3 b).

(** [a.astype(np.float32) / 255] *)
Definition astype_f32_div_255 (src : ref) : M loc :=
  a <~ load_u8x3 src ;; alloc (F32x3 (map2d screen_checker.to_unit a)).

Definition call_cvtColor_BGR2LAB_f32 (src : ref) : M loc :=
  a <~ load_f32x3 src ;;
  b <~ lift (cvtColor (BGR2LAB_f32 cv) a) ;;
  alloc (F32x3 b).

Definition call_delta_E (a : ref) (b : fpixel) (method : DeltaEMethod) : M loc :=
  x <~ load_f32x3 a ;;
  alloc (F64 (map2d (fun p => delta_E cv method p b) x)).

Definition call_delta_E_u8 (a : ref) (b : pixel) : M loc :=
  x <~ load_u8x3 a ;;
  alloc (F64 (map2d (fun p => delta_E_u8 cv p b) x)).

Definition call_np_max (a : ref) : M Q :=
  x <~ load_f64 a ;; lift (np_max x).

Definition call_np_max_u8 (a : ref) : M Z :=
  x <~ load_u8 a ;; lift (main.np_max_u8 x).

Definition call_boundingRect (src : ref) : M (Z * Z * Z * Z) :=
  a <~ load_u8 src ;; ret (boundingRect cv a).

Definition call_copyMakeBorder (src : ref) (t b l r : Z) : M loc :=
  a <~ load_u8 src ;; alloc (U8 (copyMakeBorder cv a t b l r)).

Definition call_image_to_string (src : ref) (lang config : string) : M string :=
  a <~ load_u8 src ;; ret (image_to_string cv a lang config).

(** [photo[..., k]]: a view, after the check of [k] against the last
    axis. *)
Definition call_index_last (photo : ref) (k : Z) : M ref :=
  if (k <? -3) || (3 <=? k) then
    raise (IndexError "index is out of bounds for axis 2 with size 3")
  else ret (slice photo (Channel k)).

End Calls.
End StoreOps.

(** [src/screen_checker.py] over the store. *)
Module store_screen_checker.
Import Store StoreOps.

Section Functions.

Variable cv : Prims.

Definition find_screen (photo : ref) (color : Color) (strict : bool)
  : M contour :=
  if Color_is color BLACK then raise InvalidColorError else
  gray <~ (if Color_is color WHITE then
             g <~ call_cvtColor_BGR2GRAY cv photo ;; ret (whole g)
           else call_index_last photo (value color)) ;;
  binary <~ call_threshold_otsu cv gray ;;
  contours <~ call_findContours cv (whole binary) ;;
  let contours := filter (screen_checker.above_noise_floor cv) contours in
  if strict && (1 <? Z.of_nat (length contours)) then
    raise MultipleContoursError
  else
  screen_contour <~ lift (py_max (contourArea cv) contours) ;;
  let approx := screen_checker.approximate cv screen_contour in
  if negb (Z.of_nat (length approx) =? 4) then raise ScreenNotFoundError
  else ret approx.

Definition check_screen (photo : ref) (color : Color) (corners : contour)
    (method : DeltaEMethod) : M Q :=
  warped <~ call_four_point_transform cv photo corners ;;
  let cropped := slice (whole warped) (Crop 16 (-16) 16 (-16)) in
  scaled <~ astype_f32_div_255 cropped ;;
  lab <~ call_cvtColor_BGR2LAB_f32 cv (whole scaled) ;;
  let expected :=
    cvt_single_color_f32 cv (screen_checker._color2bgr color) in
  delta_e <~ call_delta_E cv (whole lab) expected method ;;
  call_np_max (whole delta_e).

Definition ocr_ssd (photo : ref) : M string :=
  corners <~ find_screen photo WHITE screen_checker.strict_default ;;
  warped <~ call_four_point_transform cv photo corners ;;
  gray <~ call_cvtColor_BGR2GRAY cv (whole warped) ;;
  binary <~ call_threshold_otsu cv (whole gray) ;;
  box <~ call_boundingRect cv (whole binary) ;;
  let '(x, y, w, h) := box in
  let cropped := slice (whole binary) (Crop y (y + h) x (x + w)) in
  let border_width := screen_checker.border_width in
  bordered <~ call_copyMakeBorder cv cropped
                border_width border_width border_width border_width ;;
  text <~ call_image_to_string cv (whole bordered) "lets" "--psm 8" ;;
  ret (strip cv text).

End Functions.
End store_screen_checker.

(** [src/main.py] over the store. *)
Module store_main.
Import Store StoreOps.

Section Functions.

Variable cv : Prims.

Definition find_screen (photo : ref) (color : Color) : M contour :=
  if Color_is color BLACK then raise InvalidColorError else
  gray <~ (if Color_is color WHITE then
             g <~ call_cvtColor_BGR2GRAY cv photo ;; ret (whole g)
           else call_index_last photo (value color)) ;;
  binary <~ call_threshold_otsu cv gray ;;
  contours <~ call_findContours cv (whole binary) ;;
  screen_contour <~ lift (py_max (contourArea cv) contours) ;;
  let approx :=
    approxPolyDP cv screen_contour
      (Qmult 0.01 (arcLength cv screen_contour true)) true in
  if negb (Z.of_nat (length approx) =? 4) then raise ScreenNotFoundError
  else ret approx.

(** Lines 94-99.  [hsv] is the array that [cv2.cvtColor] returns, and
    line 98 adds to its third channel in place. *)
Definition brighten (color : Color) (cropped : ref) : M ref :=
  if negb (Color_is color BLACK) then
    hsv <~ call_cvtColor_u8 (BGR2HSV_u8 cv) cropped ;;
    m <~ call_np_max_u8 (slice (whole hsv) (Channel 2)) ;;
    _ <~ iadd_V hsv (255 - m) ;;
    bgr <~ call_cvtColor_u8 (HSV2BGR_u8 cv) (whole hsv) ;;
    ret (whole bgr)
  else ret cropped.

Definition check_screen (photo : ref) (color : Color) (corners : contour)
  : M Q :=
  warped <~ call_four_point_transform cv photo corners ;;
  let cropped := slice (whole warped) (Crop 16 (-16) 16 (-16)) in
  bgr <~ brighten color cropped ;;
  lab <~ call_cvtColor_u8 (BGR2LAB_u8 cv) bgr ;;
  let expected := cvt_single_color_u8 cv (main.color2bgr color) in
  delta_e <~ call_delta_E_u8 cv (whole lab) expected ;;
  call_np_max (whole delta_e).

End Functions.
End store_main.

(** ** Stand-ins for the collaborators

    Small executable replacements for the library calls, on which the
    functions above can be run.  They are not OpenCV: a contour finder
    that answers with a prepared list of contours whenever the binary
    image has a lit pixel, a transform that answers with a prepared
    image, a recogniser that answers with a prepared text. *)

Module Stub.

Definition gray_of_pixel (p : pixel) : Z :=
  let '(b, g, r) := p in (b * 1868 + g * 9617 + r * 4899 + 8192) / 16384.

Definition lit (binary : image Z) : bool :=
  existsb (fun v => negb (v =? 0)) (pixels binary).

(** Twice the signed area of a closed polygon. *)
Fixpoint cross_sum (first prev : point) (rest : list point) : Z :=
  match rest with
  | [] => fst prev * snd first - fst first * snd prev
  | p :: rest' =>
      (fst prev * snd p - fst p * snd prev) + cross_sum first p rest'
  end.

Definition area (c : contour) : Q :=
  match c with
  | [] => 0
  | p :: rest => Qmake (Z.abs (cross_sum p p rest)) 2
  end.

Definition side (p q : point) : Z :=
  Z.sqrt ((fst p - fst q) * (fst p - fst q) + (snd p - snd q) * (snd p - snd q)).

Fixpoint path_length (first prev : point) (rest : list point) (closed : bool)
  : Z :=
  match rest with
  | [] => if closed then side prev first else 0
  | p :: rest' => side prev p + path_length first p rest' closed
  end.

Definition perimeter (c : contour) (closed : bool) : Q :=
  match c with
  | [] => 0
  | p :: rest => inject_Z (path_length p p rest closed)
  end.

Definition distance (a b : fpixel) : Q :=
  let '(a1, a2, a3) := a in
  let '(b1, b2, b3) := b in
  Qplus (Qabs (Qminus a1 b1)) (Qplus (Qabs (Qminus a2 b2)) (Qabs (Qminus a3 b3))).

Definition to_Q3 (p : triple Z) : fpixel :=
  let '(a, b, c) := p in (inject_Z a, inject_Z b, inject_Z c).

Definition width {A : Type} (a : image A) : nat :=
  match a with [] => O | row :: _ => length row end.

Definition pad (a : image Z) (t b l r : Z) : image Z :=
  let blank :=
    repeat 0 (Z.to_nat l + width a + Z.to_nat r) in
  repeat blank (Z.to_nat t)
  ++ map (fun row => repeat 0 (Z.to_nat l) ++ row ++ repeat 0 (Z.to_nat r)) a
  ++ repeat blank (Z.to_nat b).

Definition prims (found : list contour) (warp : result (image pixel))
    (text : string) : Prims :=
  {| cvtColor_BGR2GRAY := map2d gray_of_pixel;
     threshold_otsu := map2d (fun v => if 127 <? v then 255 else 0);
     findContours := fun binary => if lit binary then found else [];
     contourArea := area;
     arcLength := perimeter;
     approxPolyDP := fun c _ _ => c;
     four_point_transform := fun _ _ => warp;
     BGR2LAB_f32 := fun p => p;
     cvt_single_color_f32 := to_Q3;
     delta_E := fun _ => distance;
     boundingRect :=
       fun a => (0, 0, Z.of_nat (width a), Z.of_nat (length a));
     copyMakeBorder := pad;
     image_to_string := fun _ _ _ => text;
     strip := fun s => s;
     BGR2HSV_u8 := fun p => p;
     HSV2BGR_u8 := fun p => p;
     BGR2LAB_u8 := fun p => p;
     cvt_single_color_u8 := fun p => p;
     delta_E_u8 := fun a b => distance (to_Q3 a) (to_Q3 b) |}.

(** A uniform image. *)
Definition solid {A : Type} (h w : nat) (p : A) : image A :=
  repeat (repeat p w) h.

Definition white : pixel := (255, 255, 255).
Definition black : pixel := (0, 0, 0).

(** An image of colour [p] with one pixel of colour [q], at row [i] and
    column [j]. *)
Definition patch (h w i j : nat) (p q : pixel) : image pixel :=
  Store.update i (Store.update j q (repeat p w)) (solid h w p).

(** A white image with one black pixel, at row [i] and column [j]. *)
Definition one_dark (h w i j : nat) : image pixel :=
  Store.update i (Store.update j black (repeat white w)) (solid h w white).

(** Two axis-aligned squares, of area 100 and 400, and a speck of
    area 1. *)
Definition small_square : contour := [(0, 0); (10, 0); (10, 10); (0, 10)].
Definition large_square : contour := [(20, 20); (40, 20); (40, 40); (20, 40)].
Definition speck : contour := [(50, 50); (51, 50); (51, 51); (50, 51)].
Definition pentagon : contour :=
  [(0, 0); (30, 0); (40, 20); (30, 40); (0, 40)].

(** A stand-in for [np.linalg.norm]: the integer part of the length. *)
Definition floor_norm (p : point) : Q :=
  inject_Z (Z.sqrt (fst p * fst p + snd p * snd p)).

Definition quadrilateral : contour := [(0, 0); (30, 0); (40, 20); (10, 40)].

End Stub.

(** * Properties *)

(** ** The error monad *)

Lemma bind_Ok_inv (A B : Type) (m : result A) (k : A -> result B) (b : B) :
  bind m k = Ok b -> exists a, m = Ok a /\ k a = Ok b.
Proof.
  destruct m as [a | e]; simpl; intros H.
  - exists a; split; [reflexivity | exact H].
  - discriminate H.
Qed.

Lemma bind_assoc (A B C : Type) (m : result A) (k : A -> result B)
    (k' : B -> result C) :
  bind (bind m k) k' = bind m (fun a => bind (k a) k').
Proof. destruct m; reflexivity. Qed.

(** ** Colours *)

Lemma Color_is_true (a b : Color) : Color_is a b = true <-> a = b.
Proof.
  unfold Color_is; destruct (Color_eq_dec a b); split; intros; congruence.
Qed.

Lemma Color_is_false (a b : Color) : Color_is a b = false <-> a <> b.
Proof.
  unfold Color_is; destruct (Color_eq_dec a b); split; intros; congruence.
Qed.

(** ** [max] and [np.max] *)

Lemma Qgtb_true (a b : Q) : Qgtb a b = true <-> (b < a)%Q.
Proof.
  unfold Qgtb; rewrite negb_true_iff; split; intros H.
  - apply Qnot_le_lt; intros Hle.
    apply Qle_bool_iff in Hle; congruence.
  - destruct (Qle_bool a b) eqn:E; [ | reflexivity].
    apply Qle_bool_iff in E; exfalso; exact (Qlt_not_le _ _ H E).
Qed.

Lemma Qgtb_false (a b : Q) : Qgtb a b = false <-> (a <= b)%Q.
Proof.
  unfold Qgtb; rewrite negb_false_iff; apply Qle_bool_iff.
Qed.

Section MaxFrom.

Variable A : Type.
Variable key : A -> Q.

Lemma max_from_In (l : list A) (best : A) :
  In (max_from key best l) (best :: l).
Proof.
  revert best; induction l as [ | x l IH]; intros best; simpl.
  - left; reflexivity.
  - destruct (IH (if Qgtb (key x) (key best) then x else best)) as [H | H].
    + destruct (Qgtb (key x) (key best)); [right; left | left]; exact H.
    + right; right; exact H.
Qed.

Lemma max_from_ge_best (l : list A) (best : A) :
  (key best <= key (max_from key best l))%Q.
Proof.
  revert best; induction l as [ | x l IH]; intros best; simpl.
  - apply Qle_refl.
  - destruct (Qgtb (key x) (key best)) eqn:E.
    + apply Qle_trans with (key x); [ | apply IH].
      apply Qlt_le_weak, Qgtb_true, E.
    + apply IH.
Qed.

Lemma max_from_ge (l : list A) (best x : A) :
  In x (best :: l) -> (key x <= key (max_from key best l))%Q.
Proof.
  revert best; induction l as [ | y l IH]; intros best [H | H].
  - subst x; apply Qle_refl.
  - destruct H.
  - subst x; apply max_from_ge_best.
  - simpl; destruct H as [H | H].
    + subst y; destruct (Qgtb (key x) (key best)) eqn:E.
      * apply max_from_ge_best.
      * apply Qle_trans with (key best); [ | apply max_from_ge_best].
        apply Qgtb_false, E.
    + apply IH; right; exact H.
Qed.

Lemma py_max_spec (l : list A) :
  l <> [] ->
  exists c, py_max key l = Ok c /\ In c l /\
            forall x, In x l -> (key x <= key c)%Q.
Proof.
  destruct l as [ | x l]; [congruence | intros _].
  exists (max_from key x l); split; [reflexivity | split].
  - apply max_from_In.
  - intros y Hy; apply max_from_ge; exact Hy.
Qed.

Lemma py_max_nil : py_max key [] = Raise MaxEmptyError.
Proof. reflexivity. Qed.

End MaxFrom.

Lemma np_max_spec (a : image Q) :
  pixels a <> [] ->
  exists v, np_max a = Ok v /\ In v (pixels a) /\
            forall x, In x (pixels a) -> (x <= v)%Q.
Proof.
  unfold np_max; intros H.
  destruct (pixels a) as [ | x l]; [congruence | ].
  exists (max_from (fun q => q) x l); split; [reflexivity | split].
  - apply max_from_In.
  - intros y Hy; apply (max_from_ge (fun q => q)); exact Hy.
Qed.

Lemma np_max_empty (a : image Q) :
  pixels a = [] -> np_max a = Raise ZeroSizeReductionError.
Proof. unfold np_max; intros ->; reflexivity. Qed.

Lemma np_max_Ok_inv (a : image Q) (v : Q) :
  np_max a = Ok v -> pixels a <> [].
Proof.
  unfold np_max; destruct (pixels a); [discriminate | congruence].
Qed.

(** ** Arrays and slices *)

Lemma pixels_map2d (A B : Type) (f : A -> B) (img : image A) :
  pixels (map2d f img) = map f (pixels img).
Proof. unfold pixels, map2d; symmetry; apply concat_map. Qed.

Lemma at2_map2d (A B : Type) (f : A -> B) (img : image A) (i j : nat) :
  at2 (map2d f img) i j = option_map f (at2 img i j).
Proof.
  unfold at2, map2d; rewrite nth_error_map.
  destruct (nth_error img i) as [row | ]; simpl; [ | reflexivity].
  apply nth_error_map.
Qed.

Lemma in_pixels_at2 (A : Type) (img : image A) (p : A) :
  In p (pixels img) <-> exists i j, at2 img i j = Some p.
Proof.
  unfold pixels, at2; rewrite in_concat; split.
  - intros (row & Hrow & Hp).
    destruct (In_nth_error _ _ Hrow) as [i Hi].
    destruct (In_nth_error _ _ Hp) as [j Hj].
    exists i, j; rewrite Hi; exact Hj.
  - intros (i & j & H).
    destruct (nth_error img i) as [row | ] eqn:Hi; [ | discriminate].
    exists row; split; eapply nth_error_In; eassumption.
Qed.

Lemma slice_bound_16 (n : Z) : 0 <= n -> slice_bound n 16 = Z.min n 16.
Proof.
  intros H; unfold slice_bound.
  change (16 <? 0) with false; cbv iota; lia.
Qed.

Lemma slice_bound_minus_16 (n : Z) :
  0 <= n -> slice_bound n (-16) = Z.max 0 (n - 16).
Proof.
  intros H; unfold slice_bound.
  change (-16 <? 0) with true; cbv iota; lia.
Qed.

Lemma py_slice_trim (A : Type) (l : list A) :
  py_slice 16 (-16) l = firstn (length l - 32) (skipn 16 l).
Proof.
  unfold py_slice; cbv zeta.
  rewrite slice_bound_16, slice_bound_minus_16 by lia.
  destruct (Nat.lt_ge_cases (length l) 16) as [E | E].
  - replace (Z.to_nat (Z.max 0 (Z.of_nat (length l) - 16)
                       - Z.min (Z.of_nat (length l)) 16)) with O by lia.
    replace (length l - 32)%nat with O by lia; reflexivity.
  - replace (Z.to_nat (Z.min (Z.of_nat (length l)) 16)) with 16%nat by lia.
    f_equal; lia.
Qed.

Lemma length_py_slice_trim (A : Type) (l : list A) :
  length (py_slice 16 (-16) l) = (length l - 32)%nat.
Proof.
  rewrite py_slice_trim, length_firstn, length_skipn; lia.
Qed.

Lemma nth_error_py_slice_trim (A : Type) (l : list A) (i : nat) :
  nth_error (py_slice 16 (-16) l) i =
  if (i <? length l - 32)%nat then nth_error l (16 + i) else None.
Proof.
  rewrite py_slice_trim, nth_error_firstn, nth_error_skipn; reflexivity.
Qed.

Lemma In_py_slice_trim (A : Type) (l : list A) (x : A) :
  In x (py_slice 16 (-16) l) -> In x l.
Proof.
  intros H; destruct (In_nth_error _ _ H) as [i Hi].
  rewrite nth_error_py_slice_trim in Hi.
  destruct (i <? length l - 32)%nat; [ | discriminate].
  eapply nth_error_In; exact Hi.
Qed.

Section Trim.

Variable A : Type.
Variables h w : nat.
Variable img : image A.
Hypothesis Hshape : shape h w img.

Lemma shape_row (i : nat) (row : list A) :
  nth_error img i = Some row -> length row = w.
Proof.
  intros H; destruct Hshape as [_ Hrows].
  rewrite Forall_forall in Hrows; apply Hrows.
  eapply nth_error_In; exact H.
Qed.

Lemma at2_crop_trim (i j : nat) :
  at2 (crop 16 (-16) 16 (-16) img) i j =
  if ((i <? h - 32) && (j <? w - 32))%nat then at2 img (16 + i) (16 + j)
  else None.
Proof.
  unfold at2, crop.
  rewrite nth_error_map, nth_error_py_slice_trim.
  destruct Hshape as [Hlen _]; rewrite Hlen.
  destruct (i <? h - 32)%nat; cbn [option_map andb]; [ | reflexivity].
  destruct (nth_error img (16 + i)) as [row | ] eqn:Hrow; cbn [option_map].
  - rewrite nth_error_py_slice_trim, (shape_row _ Hrow); reflexivity.
  - destruct (j <? w - 32)%nat; reflexivity.
Qed.

Lemma pixels_crop_trim_empty :
  (h <= 32 \/ w <= 32)%nat -> pixels (crop 16 (-16) 16 (-16) img) = [].
Proof.
  intros Hsmall; unfold pixels, crop.
  apply concat_nil_Forall, Forall_forall.
  intros row' Hrow'; apply in_map_iff in Hrow' as (row & <- & Hrow).
  apply length_zero_iff_nil; rewrite length_py_slice_trim.
  destruct Hsmall as [Hh | Hw].
  - exfalso.
    assert (E : length (py_slice 16 (-16) img) = O).
    { rewrite length_py_slice_trim; destruct Hshape as [-> _]; lia. }
    apply length_zero_iff_nil in E; rewrite E in Hrow; exact Hrow.
  - apply In_py_slice_trim in Hrow.
    destruct (In_nth_error _ _ Hrow) as [i Hi].
    rewrite (shape_row _ Hi); lia.
Qed.

Lemma in_pixels_crop_trim (p : A) :
  In p (pixels (crop 16 (-16) 16 (-16) img)) <->
  exists i j, (16 <= i < h - 16)%nat /\ (16 <= j < w - 16)%nat /\
              at2 img i j = Some p.
Proof.
  rewrite in_pixels_at2; split.
  - intros (i & j & H); rewrite at2_crop_trim in H.
    destruct (i <? h - 32)%nat eqn:Ei; [ | discriminate].
    destruct (j <? w - 32)%nat eqn:Ej; [ | discriminate].
    apply Nat.ltb_lt in Ei, Ej; cbn [andb] in H.
    exists (16 + i)%nat, (16 + j)%nat; repeat split; try lia; exact H.
  - intros (i & j & Hi & Hj & H).
    exists (i - 16)%nat, (j - 16)%nat; rewrite at2_crop_trim.
    replace (i - 16 <? h - 32)%nat with true
      by (symmetry; apply Nat.ltb_lt; lia).
    replace (j - 16 <? w - 32)%nat with true
      by (symmetry; apply Nat.ltb_lt; lia).
    cbn [andb]; replace (16 + (i - 16))%nat with i by lia.
    replace (16 + (j - 16))%nat with j by lia; exact H.
Qed.

Lemma at2_defined (i j : nat) :
  (i < h)%nat -> (j < w)%nat -> exists p, at2 img i j = Some p.
Proof.
  intros Hi Hj; unfold at2.
  destruct (nth_error img i) as [row | ] eqn:Hrow.
  - destruct (nth_error row j) as [p | ] eqn:Hp; [exists p; reflexivity | ].
    apply nth_error_None in Hp; rewrite (shape_row _ Hrow) in Hp; lia.
  - apply nth_error_None in Hrow; destruct Hshape as [Hlen _]; lia.
Qed.

Lemma pixels_crop_trim_nonempty :
  (32 < h)%nat -> (32 < w)%nat -> pixels (crop 16 (-16) 16 (-16) img) <> [].
Proof.
  intros Hh Hw E.
  destruct (at2_defined (i := 16) (j := 16)) as [p Hp]; try lia.
  assert (Hin : In p (pixels (crop 16 (-16) 16 (-16) img))).
  { apply in_pixels_crop_trim; exists 16%nat, 16%nat; repeat split; try lia.
    exact Hp. }
  rewrite E in Hin; exact Hin.
Qed.

End Trim.

(** ** [find_screen], stage by stage *)

Section FindScreen.

Variable cv : Prims.

Lemma segmentation_defined (photo : Photo) (color : Color) :
  color <> BLACK ->
  exists gray, screen_checker.segmentation cv photo color = Ok gray.
Proof.
  intros H; destruct color; try congruence; eexists; reflexivity.
Qed.

Lemma surviving_contours_defined (photo : Photo) (color : Color) :
  color <> BLACK -> exists cs, surviving_contours cv photo color = Ok cs.
Proof.
  intros H; unfold surviving_contours.
  destruct (segmentation_defined photo H) as [gray ->]; eexists; reflexivity.
Qed.

Lemma find_screen_stages (photo : Photo) (color : Color) (strict : bool) :
  screen_checker.find_screen cv photo color strict =
  if Color_is color BLACK then Raise InvalidColorError
  else cs <- surviving_contours cv photo color ;; select cv strict cs.
Proof.
  unfold screen_checker.find_screen, surviving_contours, select.
  destruct (Color_is color BLACK); [reflexivity | ].
  destruct (screen_checker.segmentation cv photo color); reflexivity.
Qed.

Lemma find_screen_select (photo : Photo) (color : Color) (strict : bool)
    (cs : list contour) :
  color <> BLACK ->
  surviving_contours cv photo color = Ok cs ->
  screen_checker.find_screen cv photo color strict = select cv strict cs.
Proof.
  intros Hc Hcs; rewrite find_screen_stages, Hcs.
  apply Color_is_false in Hc; rewrite Hc; reflexivity.
Qed.

Lemma select_lenient (cs : list contour) :
  select cv false cs =
  screen_contour <- py_max (contourArea cv) cs ;;
  let approx := screen_checker.approximate cv screen_contour in
  if negb (Z.of_nat (length approx) =? 4) then Raise ScreenNotFoundError
  else Ok approx.
Proof. reflexivity. Qed.

Lemma select_single (strict : bool) (cs : list contour) :
  (length cs <= 1)%nat -> select cv strict cs = select cv false cs.
Proof.
  intros H; unfold select.
  replace (1 <? Z.of_nat (length cs)) with false
    by (symmetry; apply Z.ltb_ge; lia).
  rewrite andb_false_r; reflexivity.
Qed.

Lemma select_strict_many (cs : list contour) :
  (1 < length cs)%nat -> select cv true cs = Raise MultipleContoursError.
Proof.
  intros H; unfold select.
  replace (1 <? Z.of_nat (length cs)) with true
    by (symmetry; apply Z.ltb_lt; lia).
  reflexivity.
Qed.

Lemma select_nil (strict : bool) : select cv strict [] = Raise MaxEmptyError.
Proof. unfold select; rewrite andb_false_r; reflexivity. Qed.

(** What [select] answers once the strict check is passed and a contour
    of largest area [c] is chosen. *)
Lemma select_chosen (cs : list contour) (c : contour) :
  py_max (contourArea cv) cs = Ok c ->
  select cv false cs =
  if Z.of_nat (length (screen_checker.approximate cv c)) =? 4
  then Ok (screen_checker.approximate cv c)
  else Raise ScreenNotFoundError.
Proof.
  intros H; rewrite select_lenient, H; simpl.
  destruct (Z.of_nat (length (screen_checker.approximate cv c)) =? 4);
    reflexivity.
Qed.

End FindScreen.

Lemma errors_distinct :
  MultipleContoursError <> ScreenNotFoundError /\
  MaxEmptyError <> ScreenNotFoundError /\
  InvalidColorError <> ScreenNotFoundError /\
  InvalidColorError <> MultipleContoursError.
Proof. repeat split; discriminate. Qed.

(** ** Claims about [find_screen] *)

(** C1, on the code: when no contour is left after line 60, line 67
    takes [max] of an empty tuple, and what [find_screen] raises is the
    interpreter's [ValueError] for that, not the "Cannot find the screen."
    of line 85. *)
Lemma find_screen_without_contour (cv : Prims) (photo : Photo)
    (color : Color) (strict : bool) :
  color <> BLACK ->
  surviving_contours cv photo color = Ok [] ->
  screen_checker.find_screen cv photo color strict = Raise MaxEmptyError.
Proof.
  intros Hc Hcs; rewrite (find_screen_select cv photo strict Hc Hcs).
  apply select_nil.
Qed.

(** C1 at a uniformly black 4x4 photo searched for a white screen: the
    binary map has no lit pixel, no contour is extracted, and the call
    ends in the error of [max], which is not [ScreenNotFoundError]. *)
Theorem find_screen_black_photo :
  let cv := Stub.prims [Stub.large_square] (Ok (Stub.solid 40 40 Stub.white))
              "" in
  let photo := Stub.solid 4 4 Stub.black in
  surviving_contours cv photo WHITE = Ok [] /\
  screen_checker.find_screen cv photo WHITE false = Raise MaxEmptyError /\
  screen_checker.find_screen cv photo WHITE true = Raise MaxEmptyError /\
  screen_checker.find_screen cv photo WHITE false
    <> Raise ScreenNotFoundError.
Proof.
  cbv zeta; repeat split; try (vm_compute; reflexivity).
  vm_compute; discriminate.
Qed.

(** C4: [find_screen] with [Color.BLACK] raises the invalid-colour error
    whatever the photo, the [strict] flag and the library behind it, in
    both variants; over the store it does so without reading or
    allocating anything. *)
Theorem find_screen_black_refused (cv : Prims) (photo : Photo)
    (strict : bool) (r : Store.ref) (h : Store.heap) :
  screen_checker.find_screen cv photo BLACK strict = Raise InvalidColorError /\
  main.find_screen cv photo BLACK = Raise InvalidColorError /\
  store_screen_checker.find_screen cv r BLACK strict h
    = (Raise InvalidColorError, h) /\
  store_main.find_screen cv r BLACK h = (Raise InvalidColorError, h).
Proof. repeat split. Qed.

(** C5: with more than one contour left after the noise floor, strict
    mode raises [MultipleContoursError]; without strict mode the same
    input does not, and the candidate is a surviving contour of largest
    area, on whose approximation the answer depends. *)
Theorem find_screen_strict_mode (cv : Prims) (photo : Photo) (color : Color)
    (cs : list contour) :
  color <> BLACK ->
  surviving_contours cv photo color = Ok cs ->
  (1 < length cs)%nat ->
  screen_checker.find_screen cv photo color true
    = Raise MultipleContoursError /\
  screen_checker.find_screen cv photo color false
    <> Raise MultipleContoursError /\
  exists c,
    py_max (contourArea cv) cs = Ok c /\
    In c cs /\
    (forall c', In c' cs -> (contourArea cv c' <= contourArea cv c)%Q) /\
    screen_checker.find_screen cv photo color false =
      if Z.of_nat (length (screen_checker.approximate cv c)) =? 4
      then Ok (screen_checker.approximate cv c)
      else Raise ScreenNotFoundError.
Proof.
  intros Hc Hcs Hlen.
  rewrite !(find_screen_select cv photo _ Hc Hcs).
  assert (Hne : cs <> []) by (destruct cs; [simpl in Hlen; lia | congruence]).
  destruct (py_max_spec (contourArea cv) Hne) as (c & Hmax & Hin & Hge).
  split; [apply select_strict_many; exact Hlen | ].
  rewrite (select_chosen cv cs Hmax).
  split.
  - destruct (Z.of_nat (length (screen_checker.approximate cv c)) =? 4);
      discriminate.
  - exists c; repeat split; assumption.
Qed.

Lemma find_screen_strict_mode_witness :
  let cv := Stub.prims [Stub.small_square; Stub.large_square; Stub.speck]
              (Ok (Stub.solid 40 40 Stub.white)) "" in
  let photo := Stub.solid 4 4 Stub.white in
  screen_checker.find_screen cv photo WHITE true
    = Raise MultipleContoursError /\
  screen_checker.find_screen cv photo WHITE false = Ok Stub.large_square.
Proof.
  cbv zeta; split.
  - apply (@find_screen_strict_mode
             (Stub.prims [Stub.small_square; Stub.large_square; Stub.speck]
                (Ok (Stub.solid 40 40 Stub.white)) "")
             (Stub.solid 4 4 Stub.white) WHITE
             [Stub.small_square; Stub.large_square]).
    + discriminate.
    + vm_compute; reflexivity.
    + simpl; lia.
  - vm_compute; reflexivity.
Defined.

(** C6 as stated fails in strict mode: two contours survive, the larger
    one approximates to four vertices, and yet [find_screen] raises
    [MultipleContoursError] instead of returning them. *)
Lemma find_screen_quadrilateral_strict_counterexample :
  let cv := Stub.prims [Stub.small_square; Stub.large_square]
              (Ok (Stub.solid 40 40 Stub.white)) "" in
  let photo := Stub.solid 4 4 Stub.white in
  WHITE <> BLACK /\
  surviving_contours cv photo WHITE
    = Ok [Stub.small_square; Stub.large_square] /\
  py_max (contourArea cv) [Stub.small_square; Stub.large_square]
    = Ok Stub.large_square /\
  length (screen_checker.approximate cv Stub.large_square) = 4%nat /\
  screen_checker.find_screen cv photo WHITE true
    = Raise MultipleContoursError /\
  screen_checker.find_screen cv photo WHITE true
    <> Ok (screen_checker.approximate cv Stub.large_square).
Proof.
  cbv zeta; repeat split; try (vm_compute; reflexivity); discriminate.
Qed.

(** C6, amended: for a colour other than black, at least one surviving
    contour and the strict check not firing (strict off, or exactly one
    survivor), [find_screen] approximates a surviving contour of largest
    area with a tolerance of one hundredth of its closed perimeter,
    returns the approximation when it has exactly four vertices, and
    raises [ScreenNotFoundError] exactly when it has not. *)
Theorem find_screen_quadrilateral (cv : Prims) (photo : Photo) (color : Color)
    (strict : bool) (cs : list contour) :
  color <> BLACK ->
  surviving_contours cv photo color = Ok cs ->
  cs <> [] ->
  strict = false \/ length cs = 1%nat ->
  exists c,
    py_max (contourArea cv) cs = Ok c /\
    In c cs /\
    (forall c', In c' cs -> (contourArea cv c' <= contourArea cv c)%Q) /\
    let approx :=
      approxPolyDP cv c (Qmult (1 # 100) (arcLength cv c true)) true in
    (length approx = 4%nat ->
     screen_checker.find_screen cv photo color strict = Ok approx) /\
    (screen_checker.find_screen cv photo color strict
       = Raise ScreenNotFoundError <-> length approx <> 4%nat).
Proof.
  intros Hc Hcs Hne Hstrict.
  rewrite (find_screen_select cv photo strict Hc Hcs).
  assert (Hsel : select cv strict cs = select cv false cs).
  { destruct Hstrict as [-> | Hone]; [reflexivity | ].
    apply select_single; lia. }
  rewrite Hsel.
  destruct (py_max_spec (contourArea cv) Hne) as (c & Hmax & Hin & Hge).
  exists c; repeat split; try assumption.
  - intros H4; rewrite (select_chosen cv cs Hmax).
    unfold screen_checker.approximate.
    change (0.01)%Q with (1 # 100)%Q.
    rewrite H4; reflexivity.
  - rewrite (select_chosen cv cs Hmax).
    unfold screen_checker.approximate; change (0.01)%Q with (1 # 100)%Q.
    intros H H4; rewrite H4 in H; discriminate H.
  - rewrite (select_chosen cv cs Hmax).
    unfold screen_checker.approximate; change (0.01)%Q with (1 # 100)%Q.
    intros H4.
    destruct (Z.eqb_spec
                (Z.of_nat
                   (length
                      (approxPolyDP cv c
                         (Qmult (1 # 100) (arcLength cv c true)) true))) 4)
      as [E | E]; [ | reflexivity].
    exfalso; apply H4; lia.
Qed.

Lemma find_screen_quadrilateral_witness :
  let cv := Stub.prims [Stub.small_square; Stub.large_square; Stub.speck]
              (Ok (Stub.solid 40 40 Stub.white)) "" in
  exists c,
    py_max (contourArea cv) [Stub.small_square; Stub.large_square] = Ok c /\
    In c [Stub.small_square; Stub.large_square].
Proof.
  cbv zeta.
  destruct (@find_screen_quadrilateral
              (Stub.prims [Stub.small_square; Stub.large_square; Stub.speck]
                 (Ok (Stub.solid 40 40 Stub.white)) "")
              (Stub.solid 4 4 Stub.white) WHITE false
              [Stub.small_square; Stub.large_square])
    as (c & Hmax & Hin & _).
  - discriminate.
  - vm_compute; reflexivity.
  - discriminate.
  - left; reflexivity.
  - exists c; split; assumption.
Defined.

(** C7: of the extracted contours exactly those of area above 4 are
    left after line 60, so none of area 4 or less is; the strict check
    and the choice of the largest contour see only what is left. *)
Theorem find_screen_noise_floor (cv : Prims) (photo : Photo) (color : Color)
    (strict : bool) (gray : image Z) :
  color <> BLACK ->
  screen_checker.segmentation cv photo color = Ok gray ->
  let extracted := findContours cv (threshold_otsu cv gray) in
  exists cs,
    surviving_contours cv photo color = Ok cs /\
    (forall c, In c cs <-> In c extracted /\ (4 < contourArea cv c)%Q) /\
    (forall c, (contourArea cv c <= 4)%Q -> ~ In c cs) /\
    screen_checker.find_screen cv photo color strict = select cv strict cs.
Proof.
  intros Hc Hgray extracted.
  assert (Hcs : surviving_contours cv photo color
                = Ok (filter (screen_checker.above_noise_floor cv) extracted)).
  { unfold surviving_contours; rewrite Hgray; reflexivity. }
  exists (filter (screen_checker.above_noise_floor cv) extracted).
  split; [exact Hcs | split; [ | split]].
  - intros c; rewrite filter_In.
    unfold screen_checker.above_noise_floor; rewrite Qgtb_true; reflexivity.
  - intros c Hsmall Hin; apply filter_In in Hin as [_ Hbig].
    unfold screen_checker.above_noise_floor in Hbig.
    apply Qgtb_true in Hbig; exact (Qlt_not_le _ _ Hbig Hsmall).
  - apply find_screen_select; assumption.
Qed.

Lemma find_screen_noise_floor_witness :
  let cv := Stub.prims [Stub.small_square; Stub.large_square; Stub.speck]
              (Ok (Stub.solid 40 40 Stub.white)) "" in
  let photo := Stub.solid 4 4 Stub.white in
  exists cs,
    surviving_contours cv photo RED = Ok cs /\
    ~ In Stub.speck cs.
Proof.
  cbv zeta.
  destruct (@find_screen_noise_floor
              (Stub.prims [Stub.small_square; Stub.large_square; Stub.speck]
                 (Ok (Stub.solid 40 40 Stub.white)) "")
              (Stub.solid 4 4 Stub.white) RED true
              (Stub.solid 4 4 255))
    as (cs & Hcs & _ & Hsmall & _).
  - discriminate.
  - vm_compute; reflexivity.
  - exists cs; split; [exact Hcs | ].
    apply Hsmall; vm_compute; discriminate.
Defined.

(** C8: the map that is thresholded is the grayscale conversion for
    white and, for blue, green and red, the first, second and third
    component of each pixel; that component is the one in which the
    colour's reference triple is 1, the other two being 0.  The rest of
    [find_screen] works on that map alone. *)
Theorem find_screen_segmentation_channel (cv : Prims) (photo : Photo)
    (color : Color) (strict : bool) :
  screen_checker.segmentation cv photo WHITE
    = Ok (cvtColor_BGR2GRAY cv photo) /\
  screen_checker.segmentation cv photo BLUE
    = Ok (map2d (fun p : pixel => fst (fst p)) photo) /\
  screen_checker.segmentation cv photo GREEN
    = Ok (map2d (fun p : pixel => snd (fst p)) photo) /\
  screen_checker.segmentation cv photo RED
    = Ok (map2d (fun p : pixel => snd p) photo) /\
  map (fun k => channel_of k (screen_checker._color2bgr BLUE)) [0; 1; 2]
    = map (fun k => if k =? value BLUE then 1 else 0) [0; 1; 2] /\
  map (fun k => channel_of k (screen_checker._color2bgr GREEN)) [0; 1; 2]
    = map (fun k => if k =? value GREEN then 1 else 0) [0; 1; 2] /\
  map (fun k => channel_of k (screen_checker._color2bgr RED)) [0; 1; 2]
    = map (fun k => if k =? value RED then 1 else 0) [0; 1; 2] /\
  screen_checker.find_screen cv photo color strict =
    if Color_is color BLACK then Raise InvalidColorError
    else
      gray <- screen_checker.segmentation cv photo color ;;
      select cv strict
        (filter (screen_checker.above_noise_floor cv)
           (findContours cv (threshold_otsu cv gray))).
Proof.
  assert (Hmap : forall f g : pixel -> Z,
             (forall p, f p = g p) -> map2d f photo = map2d g photo).
  { intros f g Hfg; unfold map2d.
    apply map_ext; intros row; apply map_ext; exact Hfg. }
  assert (Hchannel : forall k f, 0 <= k < 3 ->
             (forall p, channel_of k p = f p) ->
             index_last photo k = Ok (map2d f photo)).
  { intros k f Hk Hf; unfold index_last.
    assert (E1 : (k <? -3) = false) by (apply Z.ltb_ge; lia).
    assert (E2 : (3 <=? k) = false) by (apply Z.leb_gt; lia).
    assert (E3 : (k <? 0) = false) by (apply Z.ltb_ge; lia).
    rewrite E1, E2, E3; cbn [orb]; f_equal; apply Hmap; exact Hf. }
  split; [reflexivity | ].
  split; [apply Hchannel; [cbn; lia | intros [[b g] r]; reflexivity] | ].
  split; [apply Hchannel; [cbn; lia | intros [[b g] r]; reflexivity] | ].
  split; [apply Hchannel; [cbn; lia | intros [[b g] r]; reflexivity] | ].
  do 3 (split; [reflexivity | ]).
  rewrite find_screen_stages; unfold surviving_contours.
  destruct (Color_is color BLACK); [reflexivity | ].
  rewrite bind_assoc; reflexivity.
Qed.

(** ** Claims about [ocr_ssd] *)

Lemma ocr_ssd_stages (cv : Prims) (photo : Photo) :
  screen_checker.ocr_ssd cv photo =
  warped <- rectified cv photo ;;
  Ok (strip cv
        (image_to_string cv (screen_checker.prepare cv warped)
           "lets" "--psm 8")).
Proof.
  unfold screen_checker.ocr_ssd, rectified; rewrite bind_assoc; reflexivity.
Qed.

(** C2 as stated fails: the transform answers with a 40x40 image, the
    specification's rectification would trim it to 8x8, and [ocr_ssd]
    goes on with all 40 rows and columns. *)
Lemma ocr_ssd_trim_counterexample :
  let cv := Stub.prims [Stub.large_square]
              (Ok (Stub.solid 40 40 Stub.white)) "1234" in
  let photo := Stub.solid 4 4 Stub.white in
  readDisplay_rectified_spec cv photo = Ok (Stub.solid 8 8 Stub.white) /\
  rectified cv photo = Ok (Stub.solid 40 40 Stub.white) /\
  rectified cv photo <> readDisplay_rectified_spec cv photo /\
  screen_checker.prepare cv (Stub.solid 40 40 Stub.white)
    <> screen_checker.prepare cv (Stub.solid 8 8 Stub.white).
Proof.
  cbv zeta; repeat split; try (vm_compute; reflexivity);
    vm_compute; discriminate.
Qed.

(** C2, amended: [ocr_ssd] locates the screen with [Color.WHITE] and the
    default, lenient mode, and rectifies with the four-point transform
    alone; the untrimmed result is what is converted to grayscale,
    thresholded, cropped to the bounding box, given a border of 10 and
    read.  An error of [find_screen] is passed on. *)
Theorem ocr_ssd_rectifies_without_trim (cv : Prims) (photo : Photo)
    (corners : contour) (warped : image pixel) :
  screen_checker.find_screen cv photo WHITE false = Ok corners ->
  four_point_transform cv photo corners = Ok warped ->
  let binary := threshold_otsu cv (cvtColor_BGR2GRAY cv warped) in
  let x := fst (fst (fst (boundingRect cv binary))) in
  let y := snd (fst (fst (boundingRect cv binary))) in
  let w := snd (fst (boundingRect cv binary)) in
  let h := snd (boundingRect cv binary) in
  rectified cv photo = Ok warped /\
  screen_checker.ocr_ssd cv photo =
    Ok (strip cv
          (image_to_string cv
             (copyMakeBorder cv (crop y (y + h) x (x + w) binary) 10 10 10 10)
             "lets" "--psm 8")).
Proof.
  intros Hfind Hwarp binary x y w h.
  assert (Hrect : rectified cv photo = Ok warped).
  { unfold rectified, screen_checker.strict_default.
    rewrite Hfind; exact Hwarp. }
  split; [exact Hrect | ].
  rewrite ocr_ssd_stages, Hrect; simpl; do 2 f_equal.
  unfold screen_checker.prepare, screen_checker.border_width.
  subst x y w h binary.
  destruct (boundingRect cv (threshold_otsu cv (cvtColor_BGR2GRAY cv warped)))
    as [[[x y] w] h]; reflexivity.
Qed.

Lemma ocr_ssd_rectifies_without_trim_witness :
  let cv := Stub.prims [Stub.large_square]
              (Ok (Stub.solid 40 40 Stub.white)) "1234" in
  rectified cv (Stub.solid 4 4 Stub.white)
    = Ok (Stub.solid 40 40 Stub.white).
Proof.
  cbv zeta.
  apply (@ocr_ssd_rectifies_without_trim
           (Stub.prims [Stub.large_square]
              (Ok (Stub.solid 40 40 Stub.white)) "1234")
           (Stub.solid 4 4 Stub.white) Stub.large_square
           (Stub.solid 40 40 Stub.white)).
  - vm_compute; reflexivity.
  - reflexivity.
Defined.

Lemma ocr_ssd_propagates (cv : Prims) (photo : Photo) (e : exn) :
  screen_checker.find_screen cv photo WHITE false = Raise e ->
  screen_checker.ocr_ssd cv photo = Raise e.
Proof.
  intros H; unfold screen_checker.ocr_ssd, screen_checker.strict_default.
  rewrite H; reflexivity.
Qed.

(** ** Claims about [check_screen] *)

Lemma map2d_map2d (A B C : Type) (f : A -> B) (g : B -> C) (img : image A) :
  map2d g (map2d f img) = map2d (fun x => g (f x)) img.
Proof.
  unfold map2d; rewrite map_map; apply map_ext; intros row; apply map_map.
Qed.

Lemma cvtColor_nonempty (A B : Type) (f : A -> B) (src : image A) :
  pixels src <> [] -> cvtColor f src = Ok (map2d f src).
Proof. unfold cvtColor; destruct (pixels src); [congruence | reflexivity]. Qed.

Lemma cvtColor_empty (A B : Type) (f : A -> B) (src : image A) :
  pixels src = [] -> cvtColor f src = Raise (cv2_error "cvtColor").
Proof. unfold cvtColor; intros ->; reflexivity. Qed.

Lemma pixels_map2d_nil (A B : Type) (f : A -> B) (img : image A) :
  pixels (map2d f img) = [] <-> pixels img = [].
Proof.
  rewrite pixels_map2d; split; [apply map_eq_nil | intros ->; reflexivity].
Qed.

Section CheckScreen.

Variable cv : Prims.
Variable photo : Photo.
Variable color : Color.
Variable corners : contour.

Lemma check_screen_nonempty (method : DeltaEMethod) (warped : image pixel) :
  four_point_transform cv photo corners = Ok warped ->
  pixels (crop 16 (-16) 16 (-16) warped) <> [] ->
  screen_checker.check_screen cv photo color corners method
    = np_max (deviations cv color method warped).
Proof.
  intros H Hne; unfold screen_checker.check_screen, deviations.
  rewrite H; cbn [bind].
  rewrite cvtColor_nonempty
    by (intros E; apply pixels_map2d_nil in E; exact (Hne E)).
  cbn [bind]; rewrite !map2d_map2d; reflexivity.
Qed.

Lemma check_screen_empty (method : DeltaEMethod) (warped : image pixel) :
  four_point_transform cv photo corners = Ok warped ->
  pixels (crop 16 (-16) 16 (-16) warped) = [] ->
  screen_checker.check_screen cv photo color corners method
    = Raise (cv2_error "cvtColor").
Proof.
  intros H He; unfold screen_checker.check_screen.
  rewrite H; cbn [bind].
  rewrite cvtColor_empty by (apply pixels_map2d_nil; exact He).
  reflexivity.
Qed.

Lemma check_screen_transform_fails (method : DeltaEMethod) (e : exn) :
  four_point_transform cv photo corners = Raise e ->
  screen_checker.check_screen cv photo color corners method = Raise e.
Proof.
  intros H; unfold screen_checker.check_screen; rewrite H; reflexivity.
Qed.

Lemma is_ok_np_max (a : image Q) :
  is_ok (np_max a) = negb (Nat.eqb (length (pixels a)) 0).
Proof. unfold np_max; destruct (pixels a); reflexivity. Qed.

Lemma check_screen_is_ok (method : DeltaEMethod) (warped : image pixel) :
  four_point_transform cv photo corners = Ok warped ->
  is_ok (screen_checker.check_screen cv photo color corners method)
  = negb (Nat.eqb (length (pixels (crop 16 (-16) 16 (-16) warped))) 0).
Proof.
  intros H.
  destruct (pixels (crop 16 (-16) 16 (-16) warped)) as [ | p l] eqn:E.
  - rewrite (check_screen_empty method H E); reflexivity.
  - rewrite (check_screen_nonempty method H) by (rewrite E; discriminate).
    rewrite is_ok_np_max; unfold deviations.
    rewrite pixels_map2d, length_map, E; reflexivity.
Qed.

(** Whether the call returns does not depend on the method. *)
Lemma check_screen_flow (method method' : DeltaEMethod) :
  is_ok (screen_checker.check_screen cv photo color corners method')
  = is_ok (screen_checker.check_screen cv photo color corners method).
Proof.
  destruct (four_point_transform cv photo corners) as [warped | e] eqn:H.
  - rewrite !(check_screen_is_ok _ H); reflexivity.
  - rewrite !(check_screen_transform_fails _ H); reflexivity.
Qed.

End CheckScreen.

(** C3 as stated fails: not every call returns a maximum.  For a
    rectified image of 32 rows nothing is left after the trim, there is
    no pixel to take a maximum over, and the call raises. *)
Lemma check_screen_maximum_small_counterexample :
  let cv := Stub.prims [] (Ok (Stub.solid 32 40 Stub.white)) "" in
  let photo := Stub.solid 4 4 Stub.white in
  four_point_transform cv photo Stub.large_square
    = Ok (Stub.solid 32 40 Stub.white) /\
  pixels (crop 16 (-16) 16 (-16) (Stub.solid 32 40 Stub.white)) = [] /\
  is_ok (screen_checker.check_screen cv photo WHITE Stub.large_square
           CIE_2000) = false /\
  forall v,
    screen_checker.check_screen cv photo WHITE Stub.large_square CIE_2000
    <> Ok v.
Proof.
  cbv zeta; repeat split; try (vm_compute; reflexivity).
  intros v; vm_compute; discriminate.
Qed.

(** C3, amended: when the transform succeeds and the rectified image is
    more than 32 pixels high and wide, [check_screen] returns the
    largest deviation, not a mean: its value bounds, and is attained
    by, the [delta_E] between the Lab conversion of a pixel scaled to
    0..1 and the Lab conversion of the colour's reference triple, over
    the pixels at least 16 away from all four edges.  A call without
    [method] is a call with [CIE 2000], and whether the call returns is
    the same for every method. *)
Theorem check_screen_maximum (cv : Prims) (photo : Photo) (color : Color)
    (corners : contour) (method : DeltaEMethod) (warped : image pixel)
    (h w : nat) :
  four_point_transform cv photo corners = Ok warped ->
  shape h w warped ->
  (32 < h)%nat ->
  (32 < w)%nat ->
  let reference :=
    cvt_single_color_f32 cv
      match color with
      | BLUE => (1, 0, 0)
      | GREEN => (0, 1, 0)
      | RED => (0, 0, 1)
      | WHITE => (1, 1, 1)
      | BLACK => (0, 0, 0)
      end in
  let score (p : pixel) : Q :=
    delta_E cv method
      (BGR2LAB_f32 cv
         (Qdiv (inject_Z (fst (fst p))) 255,
          Qdiv (inject_Z (snd (fst p))) 255,
          Qdiv (inject_Z (snd p)) 255))
      reference in
  exists v,
    screen_checker.check_screen cv photo color corners method = Ok v /\
    (forall i j p,
        (16 <= i < h - 16)%nat -> (16 <= j < w - 16)%nat ->
        at2 warped i j = Some p -> (score p <= v)%Q) /\
    (exists i j p,
        (16 <= i < h - 16)%nat /\ (16 <= j < w - 16)%nat /\
        at2 warped i j = Some p /\ v = score p) /\
    screen_checker.check_screen_call cv photo color corners None
    = screen_checker.check_screen cv photo color corners CIE_2000 /\
    (forall method',
        is_ok (screen_checker.check_screen cv photo color corners method')
        = true).
Proof.
  intros Hwarp Hshape Hh Hw reference score.
  assert (Hscore : forall p, screen_checker.deviation cv color method p
                             = score p).
  { intros [[b g] r]; unfold score, reference, screen_checker.deviation.
    destruct color; reflexivity. }
  pose proof (pixels_crop_trim_nonempty Hshape Hh Hw) as Hcrop.
  assert (Hne : pixels (deviations cv color method warped) <> []).
  { unfold deviations; intros E; apply pixels_map2d_nil in E.
    exact (Hcrop E). }
  destruct (np_max_spec _ Hne) as (v & Hv & Hin & Hge).
  assert (Hcall : screen_checker.check_screen cv photo color corners method
                  = Ok v).
  { rewrite (check_screen_nonempty cv photo color corners method Hwarp Hcrop).
    exact Hv. }
  exists v; split; [exact Hcall | split; [ | split; [ | split]]].
  - intros i j p Hi Hj Hp; rewrite <- Hscore; apply Hge.
    unfold deviations; rewrite pixels_map2d; apply in_map.
    apply (in_pixels_crop_trim Hshape); exists i, j; repeat split;
      try lia; exact Hp.
  - unfold deviations in Hin; rewrite pixels_map2d in Hin.
    apply in_map_iff in Hin as (p & Hp & Hin).
    apply (in_pixels_crop_trim Hshape) in Hin as (i & j & Hi & Hj & Hat).
    exists i, j, p; repeat split; try lia; [exact Hat | ].
    rewrite <- Hscore; symmetry; exact Hp.
  - reflexivity.
  - intros method'.
    rewrite (check_screen_flow cv photo color corners method method').
    rewrite Hcall; reflexivity.
Qed.

(** C10 as stated fails: for a rectified image of 32 rows the array of
    deviations would be empty and [np.max] of it would raise its own
    error, but the call does not get there: [cv2.cvtColor] of line 144
    rejects the empty crop first. *)
Lemma check_screen_empty_crop_counterexample :
  let cv := Stub.prims [] (Ok (Stub.solid 32 40 Stub.white)) "" in
  let photo := Stub.solid 4 4 Stub.white in
  np_max (deviations cv RED CIE_2000 (Stub.solid 32 40 Stub.white))
    = Raise ZeroSizeReductionError /\
  screen_checker.check_screen cv photo RED Stub.large_square CIE_2000
    = Raise (cv2_error "cvtColor") /\
  screen_checker.check_screen cv photo RED Stub.large_square CIE_2000
    <> np_max (deviations cv RED CIE_2000 (Stub.solid 32 40 Stub.white)).
Proof.
  cbv zeta; repeat split; try (vm_compute; reflexivity).
  vm_compute; discriminate.
Qed.

(** C10, amended: when the rectified image has 32 rows or fewer, or 32
    columns or fewer, nothing is left of it after the trim and the call
    raises the [cv2.error] of [cv2.cvtColor], line 144, before any
    deviation or maximum is computed; so a value is returned only for
    an image more than 32 pixels high and wide. *)
Theorem check_screen_needs_margin (cv : Prims) (photo : Photo) (color : Color)
    (corners : contour) (method : DeltaEMethod) (warped : image pixel)
    (h w : nat) :
  four_point_transform cv photo corners = Ok warped ->
  shape h w warped ->
  ((h <= 32 \/ w <= 32)%nat ->
   pixels (crop 16 (-16) 16 (-16) warped) = [] /\
   screen_checker.check_screen cv photo color corners method
   = Raise (cv2_error "cvtColor"))
  /\
  (forall v,
      screen_checker.check_screen cv photo color corners method = Ok v ->
      (32 < h /\ 32 < w)%nat).
Proof.
  intros Hwarp Hshape; split.
  - intros H.
    pose proof (pixels_crop_trim_empty Hshape H) as He.
    split; [exact He | ].
    exact (check_screen_empty cv photo color corners method Hwarp He).
  - intros v Hv.
    assert (Hok : is_ok (screen_checker.check_screen cv photo color corners
                           method) = true) by (rewrite Hv; reflexivity).
    rewrite (check_screen_is_ok cv photo color corners method Hwarp) in Hok.
    destruct (Nat.le_gt_cases h 32) as [Hh | Hh].
    { rewrite (pixels_crop_trim_empty Hshape (or_introl Hh)) in Hok.
      discriminate Hok. }
    destruct (Nat.le_gt_cases w 32) as [Hw | Hw].
    { rewrite (pixels_crop_trim_empty Hshape (or_intror Hw)) in Hok.
      discriminate Hok. }
    split; assumption.
Qed.

(** ** The store: what a call leaves untouched *)

Module StoreFacts.
Import Store StoreOps.

Lemma framed_refl (n : nat) (h : heap) : (n <= length h)%nat -> framed n h h.
Proof. intros H; split; [exact H | reflexivity]. Qed.

Lemma framed_trans (n : nat) (h1 h2 h3 : heap) :
  framed n h1 h2 -> framed n h2 h3 -> framed n h1 h3.
Proof.
  intros [_ H12] [H3 H23]; split; [exact H3 | congruence].
Qed.

Lemma framed_lookup (n : nat) (h h' : heap) (l : loc) :
  framed n h h' -> (l < n)%nat -> nth_error h' l = nth_error h l.
Proof.
  intros [_ H] Hl.
  assert (E : forall k : heap, nth_error (firstn n k) l = nth_error k l).
  { intros k; rewrite nth_error_firstn.
    replace (l <? n)%nat with true by (symmetry; apply Nat.ltb_lt; exact Hl).
    reflexivity. }
  rewrite <- (E h'), <- (E h), H; reflexivity.
Qed.

Lemma framed_all (h h' : heap) :
  framed (length h) h h' -> firstn (length h) h' = h.
Proof. intros [_ H]; rewrite H; apply firstn_all. Qed.

Section Rules.

Variable n : nat.

Lemma frames_ret (A : Type) (a : A) (Q : A -> Prop) :
  Q a -> frames n (ret a) Q.
Proof. intros Ha h Hn; split; [apply framed_refl; exact Hn | exact Ha]. Qed.

Lemma frames_raise (A : Type) (e : exn) (Q : A -> Prop) :
  frames n (raise e) Q.
Proof. intros h Hn; split; [apply framed_refl; exact Hn | exact I]. Qed.

Lemma frames_lift (A : Type) (m : result A) (Q : A -> Prop) :
  (forall a, m = Ok a -> Q a) -> frames n (lift m) Q.
Proof.
  intros HQ h Hn; split; [apply framed_refl; exact Hn | ].
  simpl; destruct m; [apply HQ; reflexivity | exact I].
Qed.

Lemma frames_bind (A B : Type) (m : M A) (k : A -> M B)
    (P : A -> Prop) (Q : B -> Prop) :
  frames n m P ->
  (forall a, P a -> frames n (k a) Q) ->
  frames n (bindM m k) Q.
Proof.
  intros Hm Hk h Hn; unfold bindM.
  destruct (Hm h Hn) as [Hframe Hpost].
  destruct (m h) as [[a | e] h']; simpl in *.
  - destruct (Hk a Hpost h' (proj1 Hframe)) as [Hframe' Hpost'].
    split; [exact (framed_trans Hframe Hframe') | exact Hpost'].
  - split; [exact Hframe | exact I].
Qed.

(** A new cell lies beyond the first [n]. *)
Lemma frames_alloc (a : ndarray) (Q : loc -> Prop) :
  (forall l, (n <= l)%nat -> Q l) -> frames n (alloc a) Q.
Proof.
  intros HQ h Hn; unfold alloc; simpl; split; [split | apply HQ; exact Hn].
  - rewrite length_app; lia.
  - rewrite firstn_app.
    replace (n - length h)%nat with O by lia.
    rewrite firstn_O, app_nil_r; reflexivity.
Qed.

Lemma frames_load (r : ref) (Q : ndarray -> Prop) :
  (forall a, Q a) -> frames n (load r) Q.
Proof.
  intros HQ h Hn; unfold load.
  destruct (nth_error h (base r)); simpl;
    (split; [apply framed_refl; exact Hn | ]); [ | exact I].
  destruct (view_through (window r) n0); [apply HQ | exact I].
Qed.

(** Writing into a cell beyond the first [n] leaves these as they were. *)
Lemma frames_iadd_V (l : loc) (c : Z) (Q : unit -> Prop) :
  (n <= l)%nat -> Q tt -> frames n (iadd_V l c) Q.
Proof.
  intros Hl HQ h Hn; unfold iadd_V.
  destruct (nth_error h l) as [[a | a | a | a] | ] eqn:E; cbn [fst snd];
    try (split; [apply framed_refl; exact Hn | exact I]).
  split; [ | exact HQ].
  assert (Hlt : (l < length h)%nat)
    by (apply nth_error_Some; rewrite E; discriminate).
  unfold update; split.
  - rewrite length_app, length_firstn; cbn [length].
    rewrite length_skipn; lia.
  - rewrite firstn_app, length_firstn.
    replace (n - Nat.min l (length h))%nat with O by lia.
    rewrite firstn_O, app_nil_r, firstn_firstn.
    replace (Nat.min n l) with n by lia; reflexivity.
Qed.

End Rules.

(** One step of a proof that a computation with nothing to say about
    its result frames the first [n] cells. *)
Ltac frames_step :=
  lazymatch goal with
  | |- frames _ (ret _) _ => apply frames_ret; exact I
  | |- frames _ (raise _) _ => apply frames_raise
  | |- frames _ bad_type _ => apply frames_raise
  | |- frames _ (lift _) _ => apply frames_lift; intros; exact I
  | |- frames _ (alloc _) _ => apply frames_alloc; intros; exact I
  | |- frames _ (load _) _ => apply frames_load; intros; exact I
  | |- frames ?n (bindM _ _) _ =>
      apply (@frames_bind n _ _ _ _ (fun _ => True)); [ | intros ? _]
  | |- frames _ (if ?b then _ else _) _ => destruct b
  | |- frames _ (match ?a with _ => _ end) _ => destruct a
  end.

Ltac frames_auto := repeat frames_step.

Section Calls.

Variable cv : Prims.
Variable n : nat.

Lemma frames_load_u8x3 (r : ref) : frames n (load_u8x3 r) (fun _ => True).
Proof. unfold load_u8x3; frames_auto. Qed.

Lemma frames_load_u8 (r : ref) : frames n (load_u8 r) (fun _ => True).
Proof. unfold load_u8; frames_auto. Qed.

Lemma frames_load_f32x3 (r : ref) : frames n (load_f32x3 r) (fun _ => True).
Proof. unfold load_f32x3; frames_auto. Qed.

Lemma frames_load_f64 (r : ref) : frames n (load_f64 r) (fun _ => True).
Proof. unfold load_f64; frames_auto. Qed.

(** The conversion of line 97 of [main.py] returns a cell beyond the
    first [n]. *)
Lemma frames_call_cvtColor_u8_fresh (f : pixel -> pixel) (r : ref) :
  frames n (call_cvtColor_u8 f r) (fun l => (n <= l)%nat).
Proof.
  unfold call_cvtColor_u8.
  apply (@frames_bind n _ _ _ _ (fun _ => True));
    [apply frames_load_u8x3 | intros a _].
  apply (@frames_bind n _ _ _ _ (fun _ => True));
    [apply frames_lift; intros; exact I | intros b _].
  apply frames_alloc; intros l Hl; exact Hl.
Qed.

End Calls.

Create HintDb store_calls.

#[export] Hint Unfold
  call_cvtColor_BGR2GRAY call_threshold_otsu call_findContours
  call_four_point_transform call_cvtColor_u8 astype_f32_div_255
  call_cvtColor_BGR2LAB_f32 call_delta_E call_delta_E_u8 call_np_max
  call_np_max_u8 call_boundingRect call_copyMakeBorder call_image_to_string
  call_index_last load_u8x3 load_u8 load_f32x3 load_f64 : store_calls.

Section Functions.

Variable cv : Prims.
Variable n : nat.

Lemma frames_find_screen (photo : ref) (color : Color) (strict : bool) :
  frames n (store_screen_checker.find_screen cv photo color strict)
    (fun _ => True).
Proof.
  unfold store_screen_checker.find_screen; autounfold with store_calls.
  frames_auto.
Qed.

Lemma frames_check_screen (photo : ref) (color : Color) (corners : contour)
    (method : DeltaEMethod) :
  frames n (store_screen_checker.check_screen cv photo color corners method)
    (fun _ => True).
Proof.
  unfold store_screen_checker.check_screen; autounfold with store_calls.
  frames_auto.
Qed.

Lemma frames_ocr_ssd (photo : ref) :
  frames n (store_screen_checker.ocr_ssd cv photo) (fun _ => True).
Proof.
  unfold store_screen_checker.ocr_ssd.
  apply (@frames_bind n _ _ _ _ (fun _ => True));
    [apply frames_find_screen | intros corners _].
  autounfold with store_calls; frames_auto.
Qed.

Lemma frames_main_find_screen (photo : ref) (color : Color) :
  frames n (store_main.find_screen cv photo color) (fun _ => True).
Proof.
  unfold store_main.find_screen; autounfold with store_calls.
  frames_auto.
Qed.

(** Lines 94-99 of [main.py]: the cell written by line 98 is the one
    that line 97 has just allocated. *)
Lemma frames_brighten (color : Color) (cropped : ref) :
  frames n (store_main.brighten cv color cropped) (fun _ => True).
Proof.
  unfold store_main.brighten.
  destruct (negb (Color_is color BLACK)); [ | frames_auto].
  apply (@frames_bind n _ _ _ _ (fun l => (n <= l)%nat));
    [apply frames_call_cvtColor_u8_fresh | intros hsv Hfresh].
  apply (@frames_bind n _ _ _ _ (fun _ => True));
    [autounfold with store_calls; frames_auto | intros m _].
  apply (@frames_bind n _ _ _ _ (fun _ => True));
    [apply frames_iadd_V; [exact Hfresh | exact I] | intros _ _].
  autounfold with store_calls; frames_auto.
Qed.

Lemma frames_main_check_screen (photo : ref) (color : Color)
    (corners : contour) :
  frames n (store_main.check_screen cv photo color corners) (fun _ => True).
Proof.
  unfold store_main.check_screen.
  apply (@frames_bind n _ _ _ _ (fun _ => True));
    [autounfold with store_calls; frames_auto | intros warped _].
  apply (@frames_bind n _ _ _ _ (fun _ => True));
    [apply frames_brighten | intros bgr _].
  autounfold with store_calls; frames_auto.
Qed.

End Functions.

End StoreFacts.

(** ** The store: the values are those of the functions on arrays *)

Module StoreValues.
Import Store StoreOps StoreFacts.

Lemma load_cell (h : heap) (r : ref) (a : ndarray) :
  nth_error h (base r) = Some a -> load r h = (view_through (window r) a, h).
Proof. intros H; unfold load; rewrite H; reflexivity. Qed.

Lemma nth_error_new (h : heap) (a : ndarray) :
  nth_error (h ++ [a]) (length h) = Some a.
Proof. rewrite nth_error_app2, Nat.sub_diag by lia; reflexivity. Qed.

Lemma nth_error_old (h : heap) (a b : ndarray) (l : loc) :
  nth_error h l = Some b -> nth_error (h ++ [a]) l = Some b.
Proof.
  intros H; rewrite nth_error_app1; [exact H | ].
  apply nth_error_Some; rewrite H; discriminate.
Qed.

Lemma update_new (h : heap) (a b : ndarray) :
  update (length h) b (h ++ [a]) = h ++ [b].
Proof.
  unfold update.
  rewrite firstn_app, firstn_all, Nat.sub_diag, firstn_O, app_nil_r.
  rewrite skipn_all2 by (rewrite length_app; simpl; lia); reflexivity.
Qed.

Lemma iadd_V_new (h : heap) (a : image pixel) (c : Z) :
  iadd_V (length h) c (h ++ [U8x3 a])
  = (Ok tt, h ++ [U8x3 (map2d (main.add_to_V c) a)]).
Proof. unfold iadd_V; rewrite nth_error_new, update_new; reflexivity. Qed.

Ltac find_cell :=
  first [ eassumption | apply nth_error_new | apply nth_error_old; find_cell ].

Ltac store_run :=
  repeat first
    [ erewrite load_cell by (cbn [base whole slice]; find_cell)
    | rewrite iadd_V_new
    | progress cbn [view_through view_step window whole slice base bind
                    app fst snd] ].

(** Lines 63-87 of [find_screen] use no array. *)
Ltac select_run :=
  lazymatch goal with
  | |- context [if (?s && ?b)%bool then _ else _] => destruct (s && b)%bool
  end;
  [reflexivity | ];
  lazymatch goal with
  | |- context [py_max ?k ?l] => destruct (py_max k l)
  end;
  [cbn [bind] | reflexivity];
  lazymatch goal with
  | |- context [negb ?b] => destruct (negb b)
  end;
  reflexivity.

Ltac store_unfold :=
  autounfold with store_calls; unfold bindM, ret, lift, raise, bad_type, alloc.

Section Values.

Variable cv : Prims.
Variable h : heap.
Variable p : loc.
Variable img : Photo.
Hypothesis Hphoto : nth_error h p = Some (U8x3 img).

Lemma find_screen_value (color : Color) (strict : bool) :
  fst (store_screen_checker.find_screen cv (whole p) color strict h)
  = screen_checker.find_screen cv img color strict.
Proof.
  unfold store_screen_checker.find_screen, screen_checker.find_screen,
    screen_checker.segmentation.
  destruct (Color_is color BLACK); [reflexivity | ].
  store_unfold.
  destruct (Color_is color WHITE).
  - store_run; select_run.
  - unfold index_last.
    destruct ((value color <? -3) || (3 <=? value color)) eqn:E;
      [reflexivity | ].
    store_run; unfold index_last; rewrite E; store_run; select_run.
Qed.

Lemma check_screen_value (color : Color) (corners : contour)
    (method : DeltaEMethod) :
  fst (store_screen_checker.check_screen cv (whole p) color corners method h)
  = screen_checker.check_screen cv img color corners method.
Proof.
  unfold store_screen_checker.check_screen, screen_checker.check_screen.
  store_unfold; store_run.
  destruct (four_point_transform cv img corners) as [warped | e];
    [ | reflexivity].
  store_run.
  destruct (cvtColor _ _) as [lab | e]; [ | reflexivity].
  store_run; destruct (np_max _); reflexivity.
Qed.

Lemma main_check_screen_value (color : Color) (corners : contour) :
  fst (store_main.check_screen cv (whole p) color corners h)
  = main.check_screen cv img color corners.
Proof.
  unfold store_main.check_screen, main.check_screen, store_main.brighten,
    main.brighten.
  store_unfold; store_run.
  destruct (four_point_transform cv img corners) as [warped | e];
    [ | reflexivity].
  store_run.
  destruct (negb (Color_is color BLACK)).
  - store_run.
    destruct (cvtColor (BGR2HSV_u8 cv) _) as [hsv | e]; [ | reflexivity].
    store_run.
    change (index_last hsv 2) with (Ok (map2d (channel_of 2) hsv)).
    store_run.
    destruct (main.np_max_u8 _) as [m | e]; [ | reflexivity].
    store_run.
    destruct (cvtColor (HSV2BGR_u8 cv) _) as [bgr | e]; [ | reflexivity].
    store_run.
    destruct (cvtColor (BGR2LAB_u8 cv) _) as [lab | e]; [ | reflexivity].
    store_run; destruct (np_max _); reflexivity.
  - store_run.
    destruct (cvtColor (BGR2LAB_u8 cv) _) as [lab | e]; [ | reflexivity].
    store_run; destruct (np_max _); reflexivity.
Qed.

Lemma main_find_screen_value (color : Color) :
  fst (store_main.find_screen cv (whole p) color h)
  = main.find_screen cv img color.
Proof.
  unfold store_main.find_screen, main.find_screen.
  destruct (Color_is color BLACK); [reflexivity | ].
  store_unfold.
  destruct (Color_is color WHITE).
  - store_run.
    destruct (py_max _ _); [cbn [bind] | reflexivity].
    destruct (negb _); reflexivity.
  - unfold index_last.
    destruct ((value color <? -3) || (3 <=? value color)) eqn:E;
      [reflexivity | ].
    store_run; unfold index_last; rewrite E; store_run.
    destruct (py_max _ _); [cbn [bind] | reflexivity].
    destruct (negb _); reflexivity.
Qed.

Lemma ocr_ssd_value :
  fst (store_screen_checker.ocr_ssd cv (whole p) h)
  = screen_checker.ocr_ssd cv img.
Proof.
  unfold store_screen_checker.ocr_ssd, screen_checker.ocr_ssd,
    store_screen_checker.find_screen, screen_checker.find_screen,
    screen_checker.segmentation, screen_checker.strict_default,
    screen_checker.prepare.
  change (Color_is WHITE BLACK) with false.
  change (Color_is WHITE WHITE) with true.
  cbn [andb bind]; store_unfold; store_run.
  destruct (py_max _ _) as [c | e]; [cbn [bind] | reflexivity].
  destruct (negb _); [reflexivity | ].
  store_run.
  destruct (four_point_transform cv img (screen_checker.approximate cv c))
    as [warped | e]; [ | reflexivity].
  store_run.
  destruct (boundingRect cv _) as [[[x y] w] hh].
  store_run; reflexivity.
Qed.

End Values.

End StoreValues.

(** ** Remaining claims *)

(** A run of [check_screen] on a white image with one black pixel
    inside the trimmed region: the result is the deviation of that
    pixel, 3 for the stand-in distance, and not the mean over the 64
    pixels kept.  With the black pixel inside the margin it is 0. *)
Example check_screen_one_dark_pixel :
  let photo := Stub.solid 4 4 Stub.white in
  (exists v,
      screen_checker.check_screen
        (Stub.prims [] (Ok (Stub.one_dark 40 40 20 20)) "")
        photo WHITE Stub.large_square CIE_2000 = Ok v /\ (v == 3)%Q) /\
  (exists v,
      screen_checker.check_screen
        (Stub.prims [] (Ok (Stub.one_dark 40 40 10 20)) "")
        photo WHITE Stub.large_square CIE_2000 = Ok v /\ (v == 0)%Q).
Proof.
  cbv zeta; split; eexists; (split; [vm_compute; reflexivity | reflexivity]).
Qed.

Lemma shape_solid (A : Type) (h w : nat) (p : A) :
  shape h w (Stub.solid h w p).
Proof.
  unfold shape, Stub.solid; split; [apply repeat_length | ].
  apply Forall_forall; intros row Hrow.
  apply repeat_spec in Hrow; subst row; apply repeat_length.
Defined.

Lemma shape_one_dark : shape 40 40 (Stub.one_dark 40 40 20 20).
Proof. split; [reflexivity | repeat constructor]. Defined.

Lemma check_screen_maximum_witness :
  exists v,
    screen_checker.check_screen
      (Stub.prims [] (Ok (Stub.one_dark 40 40 20 20)) "")
      (Stub.solid 4 4 Stub.white) WHITE Stub.large_square CIE_2000 = Ok v /\
    (3 <= v)%Q.
Proof.
  pose proof (@check_screen_maximum
                (Stub.prims [] (Ok (Stub.one_dark 40 40 20 20)) "")
                (Stub.solid 4 4 Stub.white) WHITE Stub.large_square CIE_2000
                (Stub.one_dark 40 40 20 20) 40 40
                eq_refl shape_one_dark) as H.
  cbv zeta in H.
  destruct H as (v & Hv & Hbound & _); [lia | lia | ].
  exists v; split; [exact Hv | ].
  refine (Qle_trans _ _ _ _
            (Hbound 20%nat 20%nat Stub.black _ _ eq_refl)); [ | lia | lia].
  vm_compute; discriminate.
Defined.

Lemma check_screen_needs_margin_witness :
  screen_checker.check_screen
    (Stub.prims [] (Ok (Stub.solid 32 40 Stub.white)) "")
    (Stub.solid 4 4 Stub.white) RED Stub.large_square CIE_2000
  = Raise (cv2_error "cvtColor").
Proof.
  destruct (@check_screen_needs_margin
              (Stub.prims [] (Ok (Stub.solid 32 40 Stub.white)) "")
              (Stub.solid 4 4 Stub.white) RED Stub.large_square CIE_2000
              (Stub.solid 32 40 Stub.white) 32 40)
    as [Hsmall _].
  - reflexivity.
  - apply shape_solid.
  - apply Hsmall; left; lia.
Defined.

(** C9: whatever the store holds before a call of [find_screen],
    [check_screen] or [ocr_ssd], of either variant, it holds unchanged
    after it, whether the call returns or raises: the photo and every
    other array that existed are as they were, and the cell that line 98
    of [main.py] overwrites is one the call itself has allocated. *)
Theorem photo_left_untouched (cv : Prims) (h : Store.heap) (photo : Store.ref)
    (color : Color) (strict : bool) (corners : contour)
    (method : DeltaEMethod) :
  firstn (length h)
    (snd (store_screen_checker.find_screen cv photo color strict h)) = h /\
  firstn (length h)
    (snd (store_screen_checker.check_screen cv photo color corners method h))
    = h /\
  firstn (length h) (snd (store_screen_checker.ocr_ssd cv photo h)) = h /\
  firstn (length h) (snd (store_main.find_screen cv photo color h)) = h /\
  firstn (length h)
    (snd (store_main.check_screen cv photo color corners h)) = h.
Proof.
  repeat split; apply StoreFacts.framed_all.
  - exact (proj1 (@StoreFacts.frames_find_screen cv (length h) photo color
                    strict h (le_n _))).
  - exact (proj1 (@StoreFacts.frames_check_screen cv (length h) photo color
                    corners method h (le_n _))).
  - exact (proj1 (@StoreFacts.frames_ocr_ssd cv (length h) photo h (le_n _))).
  - exact (proj1 (@StoreFacts.frames_main_find_screen cv (length h) photo
                    color h (le_n _))).
  - exact (proj1 (@StoreFacts.frames_main_check_screen cv (length h) photo
                    color corners h (le_n _))).
Qed.

(** A run of the older [check_screen] on a store that holds the photo
    alone: afterwards the photo and the rectified image are as they
    were, and the third cell is the converted copy with its third
    channel raised from 200 to 255. *)
Example main_check_screen_store :
  let dim : pixel := (10, 20, 200) in
  let photo := Stub.solid 4 4 dim in
  let cv := Stub.prims [] (Ok (Stub.solid 40 40 dim)) "" in
  let h' :=
    snd (store_main.check_screen cv (Store.whole 0%nat) WHITE
           Stub.large_square [Store.U8x3 photo]) in
  nth_error h' 0%nat = Some (Store.U8x3 photo) /\
  nth_error h' 1%nat = Some (Store.U8x3 (Stub.solid 40 40 dim)) /\
  nth_error h' 2%nat = Some (Store.U8x3 (Stub.solid 8 8 (10, 20, 255))) /\
  length h' = 6%nat.
Proof. cbv zeta; repeat split; vm_compute; reflexivity. Qed.

(** The store does record a write into an array that existed: line 98
    applied to the photo's own cell would change the photo. *)
Example iadd_V_writes :
  snd (Store.iadd_V 0%nat 55 [Store.U8x3 (Stub.solid 1 1 (10, 20, 200))])
  = [Store.U8x3 (Stub.solid 1 1 (10, 20, 255))].
Proof. vm_compute; reflexivity. Qed.

(** * Further properties *)

(** ** 32-bit arithmetic *)

Lemma wrap32_range (z : Z) : int32 (wrap32 z).
Proof.
  unfold int32, wrap32.
  pose proof (Z.mod_pos_bound (z + 2 ^ 31) (2 ^ 32)); lia.
Qed.

Lemma wrap32_small (z : Z) : int32 z -> wrap32 z = z.
Proof.
  unfold int32, wrap32; intros H.
  rewrite Z.mod_small by lia; lia.
Qed.

Lemma wrap32_congr (a b : Z) :
  a mod 2 ^ 32 = b mod 2 ^ 32 -> wrap32 a = wrap32 b.
Proof.
  intros H; unfold wrap32; f_equal.
  rewrite <- (Zplus_mod_idemp_l a), <- (Zplus_mod_idemp_l b), H.
  reflexivity.
Qed.

Lemma wrap32_mod (z : Z) : wrap32 z mod 2 ^ 32 = z mod 2 ^ 32.
Proof.
  unfold wrap32.
  rewrite Zminus_mod_idemp_l.
  f_equal; lia.
Qed.

Lemma wrap32_idem (z : Z) : wrap32 (wrap32 z) = wrap32 z.
Proof. apply wrap32_congr, wrap32_mod. Qed.

Lemma wrap32_add_r (a b : Z) : wrap32 (a + wrap32 b) = wrap32 (a + b).
Proof.
  apply wrap32_congr.
  rewrite <- Zplus_mod_idemp_r, wrap32_mod, Zplus_mod_idemp_r; reflexivity.
Qed.

Lemma wrap32_add_l (a b : Z) : wrap32 (wrap32 a + b) = wrap32 (a + b).
Proof. rewrite Z.add_comm, wrap32_add_r, Z.add_comm; reflexivity. Qed.

Lemma wrap32_sub (a b : Z) : wrap32 (wrap32 a - wrap32 b) = wrap32 (a - b).
Proof.
  apply wrap32_congr.
  rewrite Zminus_mod, !wrap32_mod, <- Zminus_mod; reflexivity.
Qed.

(** The negation of an [int32]: the least one is its own negation. *)
Lemma abs32_wrap32_opp (z : Z) : abs32 (wrap32 (- z)) = abs32 (wrap32 z).
Proof.
  pose proof (wrap32_range z) as Hr; unfold int32 in Hr.
  destruct (Z.eq_dec (wrap32 z) (- 2 ^ 31)) as [E | E].
  - assert (E' : wrap32 (- z) = wrap32 z).
    { apply wrap32_congr.
      rewrite <- (wrap32_mod z), E.
      rewrite <- Z.sub_0_l, Zminus_mod, <- (wrap32_mod z), E.
      reflexivity. }
    rewrite E'; reflexivity.
  - assert (E' : wrap32 (- z) = - wrap32 z).
    { rewrite <- (wrap32_small (z := - wrap32 z)) by (unfold int32; lia).
      apply wrap32_congr.
      rewrite <- !Z.sub_0_l, Zminus_mod, (Zminus_mod 0 (wrap32 z)), wrap32_mod.
      reflexivity. }
    rewrite E'; unfold abs32; rewrite Z.abs_opp; reflexivity.
Qed.

(** ** Sums of products *)

Lemma fold_dot_acc (l : list (Z * Z)) (acc : Z) :
  fold_left (fun acc ab => acc + fst ab * snd ab) l acc
  = acc + fold_left (fun acc ab => acc + fst ab * snd ab) l 0.
Proof.
  revert acc; induction l as [ | ab l IH]; intros acc; simpl; [lia | ].
  rewrite IH, (IH (fst ab * snd ab)); lia.
Qed.

Lemma dot_cons (a b : Z) (u v : list Z) :
  dot (a :: u) (b :: v) = a * b + dot u v.
Proof. unfold dot; simpl; apply fold_dot_acc. Qed.

Lemma dot_nil_l (v : list Z) : dot [] v = 0.
Proof. reflexivity. Qed.

Lemma dot_nil_r (u : list Z) : dot u [] = 0.
Proof. destruct u; reflexivity. Qed.

Lemma dot_comm (u v : list Z) : dot u v = dot v u.
Proof.
  revert v; induction u as [ | a u IH]; intros [ | b v];
    try reflexivity.
  rewrite !dot_cons, IH; lia.
Qed.

Lemma dot_app (u u' v v' : list Z) :
  length u = length v -> dot (u ++ u') (v ++ v') = dot u v + dot u' v'.
Proof.
  revert v; induction u as [ | a u IH]; intros [ | b v] H;
    try discriminate H.
  - reflexivity.
  - simpl app; rewrite !dot_cons, IH by (simpl in H; lia); lia.
Qed.

Lemma dot_rev (u v : list Z) :
  length u = length v -> dot (rev u) (rev v) = dot u v.
Proof.
  revert v; induction u as [ | a u IH]; intros [ | b v] H;
    try discriminate H.
  - reflexivity.
  - simpl rev; rewrite dot_app by (rewrite !length_rev; simpl in H; lia).
    rewrite IH by (simpl in H; lia).
    rewrite !dot_cons, dot_nil_l; lia.
Qed.

Lemma dot32_exact (a b : list Z) : dot32 a b = wrap32 (dot a b).
Proof.
  unfold dot32, dot.
  assert (H : forall l acc,
             fold_left (fun acc ab => wrap32 (acc + wrap32 (fst ab * snd ab)))
               l (wrap32 acc)
             = wrap32 (fold_left (fun acc ab => acc + fst ab * snd ab) l acc)).
  { induction l as [ | ab l IH]; intros acc; simpl; [reflexivity | ].
    rewrite wrap32_add_r, wrap32_add_l; apply IH. }
  rewrite <- H; reflexivity.
Qed.

Lemma roll1_snoc (A : Type) (l : list A) (a : A) : roll1 (l ++ [a]) = a :: l.
Proof. unfold roll1; rewrite rev_app_distr; simpl; rewrite rev_involutive; reflexivity. Qed.

Lemma roll1_rev_cons (A : Type) (l : list A) (a : A) :
  roll1 (rev (a :: l)) = a :: rev l.
Proof. simpl rev; apply roll1_snoc. Qed.

Lemma length_roll1 (A : Type) (l : list A) : length (roll1 l) = length l.
Proof.
  destruct l as [ | a l _] using rev_ind; [reflexivity | ].
  rewrite roll1_snoc, length_app; simpl; lia.
Qed.

Lemma dot_rotate (x0 : Z) (xs y : list Z) :
  length y = S (length xs) ->
  dot (xs ++ [x0]) y = dot (x0 :: xs) (roll1 y).
Proof.
  destruct y as [ | yl y' _] using rev_ind; [discriminate | intros H].
  rewrite length_app in H; simpl in H.
  rewrite roll1_snoc, dot_app, !dot_cons, dot_nil_l by lia; lia.
Qed.

Lemma dot_rev_roll1 (x y : list Z) :
  length x = length y -> dot (rev x) (roll1 (rev y)) = dot y (roll1 x).
Proof.
  destruct y as [ | y0 yt]; intros H.
  - destruct x; [reflexivity | discriminate H].
  - destruct x as [ | xl xi _] using rev_ind; [discriminate H | ].
    rewrite length_app in H; simpl in H.
    rewrite roll1_rev_cons, roll1_snoc, rev_app_distr; simpl rev; simpl app.
    rewrite !dot_cons, dot_rev, (dot_comm xi yt) by lia; lia.
Qed.

(** ** [get_size] *)

Lemma half_inject_Z (a : Z) :
  (Qmult 0.5 (inject_Z a) == inject_Z a / 2)%Q.
Proof. field. Qed.

Lemma half_nonneg (a : Z) : 0 <= a -> (0 <= Qmult 0.5 (inject_Z a))%Q.
Proof.
  intros H; apply Qmult_le_0_compat; [discriminate | ].
  change 0%Q with (inject_Z 0); rewrite <- Zle_Qle; exact H.
Qed.

Lemma cross_rotate1 (corner : contour) : cross (rotate1 corner) = cross corner.
Proof.
  destruct corner as [ | p r]; [reflexivity | ].
  unfold cross, rotate1; rewrite !map_app; simpl map.
  rewrite !roll1_snoc; unfold point in *.
  rewrite (@dot_rotate (fst p) (map fst r) (snd p :: map snd r))
    by (simpl; rewrite !length_map; reflexivity).
  rewrite (@dot_rotate (snd p) (map snd r) (fst p :: map fst r))
    by (simpl; rewrite !length_map; reflexivity).
  reflexivity.
Qed.

Lemma cross_rev (corner : contour) : cross (rev corner) = - cross corner.
Proof.
  unfold cross; rewrite !map_rev; unfold contour, point in *.
  rewrite (@dot_rev_roll1 (map fst corner) (map snd corner))
    by (rewrite !length_map; reflexivity).
  rewrite (@dot_rev_roll1 (map snd corner) (map fst corner))
    by (rewrite !length_map; reflexivity).
  lia.
Qed.

Lemma get_size_cross (corner : contour) :
  screen_checker.get_size corner
  = Qmult 0.5 (inject_Z (abs32 (wrap32 (cross corner)))).
Proof.
  unfold screen_checker.get_size, cross; cbv zeta.
  rewrite !dot32_exact, wrap32_sub; reflexivity.
Qed.

(** X10: [get_size] does not depend on the vertex the polygon starts from,
    nor on the direction in which it is walked; this holds with the
    32-bit wrap-around as well. *)
Theorem get_size_order (corner : contour) :
  screen_checker.get_size (rotate1 corner) = screen_checker.get_size corner /\
  screen_checker.get_size (rev corner) = screen_checker.get_size corner.
Proof.
  rewrite !get_size_cross, cross_rotate1, cross_rev, abs32_wrap32_opp.
  split; reflexivity.
Qed.

Lemma abs32_fits (z : Z) : Z.abs z < 2 ^ 31 -> abs32 (wrap32 z) = Z.abs z.
Proof.
  intros H; unfold abs32.
  rewrite (wrap32_small (z := z)) by (unfold int32; lia).
  apply wrap32_small; unfold int32; lia.
Qed.

(** X11: when twice the enclosed area fits in an [int32], [get_size] is half
    the absolute value of the exact shoelace sum and is not negative,
    whatever the two dot products of line 109 overflow to on the way. *)
Theorem get_size_exact (corner : contour) :
  Z.abs (cross corner) < 2 ^ 31 ->
  (screen_checker.get_size corner == inject_Z (Z.abs (cross corner)) / 2)%Q /\
  (0 <= screen_checker.get_size corner)%Q.
Proof.
  intros H; rewrite get_size_cross, (@abs32_fits _ H).
  split; [apply half_inject_Z | apply half_nonneg; lia].
Qed.

Lemma get_size_exact_witness :
  (screen_checker.get_size Stub.pentagon == 1400)%Q.
Proof.
  destruct (@get_size_exact Stub.pentagon) as [H _].
  - vm_compute; reflexivity.
  - rewrite H; vm_compute; reflexivity.
Defined.

(** X12: the size of an axis-aligned rectangle given by its four corners in
    order is its width times its height, for coordinates below 32768. *)
Theorem get_size_rectangle (x0 y0 x1 y1 : Z) :
  0 <= x0 < 32768 -> 0 <= x1 < 32768 ->
  0 <= y0 < 32768 -> 0 <= y1 < 32768 ->
  (screen_checker.get_size [(x0, y0); (x1, y0); (x1, y1); (x0, y1)]
   == inject_Z (Z.abs (x1 - x0) * Z.abs (y1 - y0)))%Q.
Proof.
  intros Hx0 Hx1 Hy0 Hy1.
  assert (Hc : cross [(x0, y0); (x1, y0); (x1, y1); (x0, y1)]
               = - (2 * ((x1 - x0) * (y1 - y0)))).
  { unfold cross, roll1, dot.
    cbn [map fst snd rev app combine fold_left]; ring. }
  assert (Hb : Z.abs (x1 - x0) * Z.abs (y1 - y0) < 2 ^ 30).
  { change (2 ^ 30) with (32768 * 32768).
    apply Z.mul_lt_mono_nonneg; lia. }
  assert (Ha : Z.abs (cross [(x0, y0); (x1, y0); (x1, y1); (x0, y1)])
               = 2 * (Z.abs (x1 - x0) * Z.abs (y1 - y0))).
  { rewrite Hc, Z.abs_opp, Z.abs_mul, Z.abs_mul; reflexivity. }
  rewrite get_size_cross, abs32_fits by (rewrite Ha; lia).
  rewrite Ha, !inject_Z_mult; field.
Qed.

Lemma get_size_rectangle_witness :
  (screen_checker.get_size Stub.large_square == 400)%Q.
Proof.
  apply (@get_size_rectangle 20 20 40 40); lia.
Defined.

(** X13: a polygon of fewer than three points has size 0. *)
Theorem get_size_degenerate (corner : contour) :
  (length corner < 3)%nat -> (screen_checker.get_size corner == 0)%Q.
Proof.
  intros H; rewrite get_size_cross.
  assert (E : cross corner = 0).
  { destruct corner as [ | p [ | q [ | r l]]]; try (simpl in H; lia);
      unfold cross, roll1, dot; simpl; ring. }
  rewrite E; vm_compute; reflexivity.
Qed.

Lemma get_size_degenerate_witness :
  Qeq (screen_checker.get_size [(3, 4); (10, 20)]) 0.
Proof. apply get_size_degenerate; simpl; lia. Defined.

(** ** Outcomes of [find_screen] *)

Lemma select_Ok_inv (cv : Prims) (strict : bool) (cs : list contour)
    (corners : contour) :
  select cv strict cs = Ok corners ->
  length corners = 4%nat /\
  exists c, In c cs /\ corners = screen_checker.approximate cv c.
Proof.
  unfold select.
  destruct (strict && (1 <? Z.of_nat (length cs))); [discriminate | ].
  destruct cs as [ | c0 cs']; [discriminate | ].
  set (c := max_from (contourArea cv) c0 cs').
  assert (Hin : In c (c0 :: cs')) by apply max_from_In.
  change (py_max (contourArea cv) (c0 :: cs')) with (Ok c); cbn [bind].
  destruct (Z.eqb_spec (Z.of_nat (length (screen_checker.approximate cv c))) 4)
    as [E | E]; cbn [negb]; [ | discriminate].
  intros H; injection H as <-; split; [lia | ].
  exists c; split; [exact Hin | reflexivity].
Qed.

Lemma select_Raise_inv (cv : Prims) (strict : bool) (cs : list contour)
    (e : exn) :
  select cv strict cs = Raise e ->
  (e = MultipleContoursError /\ strict = true /\ (1 < length cs)%nat) \/
  (e = MaxEmptyError /\ cs = []) \/
  (e = ScreenNotFoundError /\ cs <> []).
Proof.
  unfold select.
  destruct (Z.ltb_spec 1 (Z.of_nat (length cs))) as [Hlen | Hlen];
    destruct strict; cbn [andb].
  - intros H; injection H as <-; left; repeat split; lia.
  - destruct cs as [ | c0 cs']; [simpl in Hlen; lia | ].
    cbn [py_max bind].
    destruct (negb _); [ | discriminate].
    intros H; injection H as <-; right; right; split; congruence.
  - destruct cs as [ | c0 cs'].
    + intros H; injection H as <-; right; left; split; reflexivity.
    + cbn [py_max bind].
      destruct (negb _); [ | discriminate].
      intros H; injection H as <-; right; right; split; congruence.
  - destruct cs as [ | c0 cs'].
    + intros H; injection H as <-; right; left; split; reflexivity.
    + cbn [py_max bind].
      destruct (negb _); [ | discriminate].
      intros H; injection H as <-; right; right; split; congruence.
Qed.

Lemma find_screen_Ok_inv (cv : Prims) (photo : Photo) (color : Color)
    (strict : bool) (corners : contour) :
  screen_checker.find_screen cv photo color strict = Ok corners ->
  color <> BLACK /\ length corners = 4%nat.
Proof.
  rewrite find_screen_stages.
  destruct (Color_eq_dec color BLACK) as [-> | Hc]; [discriminate | ].
  pose proof Hc as Hc'; apply Color_is_false in Hc'; rewrite Hc'.
  destruct (surviving_contours_defined cv photo Hc) as [cs ->].
  cbn [bind]; intros E; split; [exact Hc | ].
  exact (proj1 (select_Ok_inv cv strict cs E)).
Qed.

Lemma filter_nil_inv (A : Type) (f : A -> bool) (l : list A) (x : A) :
  filter f l = [] -> In x l -> f x = false.
Proof.
  intros E Hx; destruct (f x) eqn:Hf; [ | reflexivity].
  assert (H : In x (filter f l)) by (apply filter_In; split; assumption).
  rewrite E in H; destruct H.
Qed.

(** X1: what the outcome of a call of [find_screen] tells about the call.
    A returned value has exactly four points, the colour is not black,
    and the points are the approximation, with a tolerance of 1% of the
    closed perimeter, of an extracted contour of area above 4.  The
    invalid-colour error is raised for black and only for black.
    [MultipleContoursError] is raised only in strict mode, for a colour
    other than black and with more than one extracted contour of area
    above 4.  The error of [max] is raised only when no extracted contour
    has an area above 4. *)
Theorem find_screen_outcome_conditions (cv : Prims) (photo : Photo)
    (color : Color) (strict : bool) :
  (forall corners,
      screen_checker.find_screen cv photo color strict = Ok corners ->
      color <> BLACK /\ length corners = 4%nat /\
      exists gray c,
        screen_checker.segmentation cv photo color = Ok gray /\
        In c (findContours cv (threshold_otsu cv gray)) /\
        (4 < contourArea cv c)%Q /\
        corners
        = approxPolyDP cv c (Qmult 0.01 (arcLength cv c true)) true) /\
  (screen_checker.find_screen cv photo color strict = Raise InvalidColorError
   <-> color = BLACK) /\
  (screen_checker.find_screen cv photo color strict
   = Raise MultipleContoursError ->
   strict = true /\ color <> BLACK /\
   exists gray,
     screen_checker.segmentation cv photo color = Ok gray /\
     (1 < length (filter (fun c => Qgtb (contourArea cv c) 4)
                    (findContours cv (threshold_otsu cv gray))))%nat) /\
  (screen_checker.find_screen cv photo color strict = Raise MaxEmptyError ->
   color <> BLACK /\
   exists gray,
     screen_checker.segmentation cv photo color = Ok gray /\
     forall c, In c (findContours cv (threshold_otsu cv gray)) ->
               (contourArea cv c <= 4)%Q).
Proof.
  rewrite find_screen_stages; unfold surviving_contours.
  destruct (Color_eq_dec color BLACK) as [-> | Hc].
  { change (Color_is BLACK BLACK) with true; cbv iota.
    repeat split; try discriminate; congruence. }
  pose proof Hc as Hc'; apply Color_is_false in Hc'; rewrite Hc'.
  destruct (segmentation_defined cv photo Hc) as [gray ->]; cbn [bind].
  set (cs := filter (screen_checker.above_noise_floor cv)
               (findContours cv (threshold_otsu cv gray))).
  split; [ | split; [ | split]].
  - intros corners E.
    destruct (select_Ok_inv cv strict cs E) as (Hlen & c & Hin & ->).
    apply filter_In in Hin as [Hin Harea].
    split; [exact Hc | split; [exact Hlen | ]].
    exists gray, c; repeat split; [exact Hin | ].
    apply Qgtb_true; exact Harea.
  - split; [ | contradiction].
    intros E.
    destruct (select_Raise_inv cv strict cs E)
      as [(He & _) | [(He & _) | (He & _)]]; discriminate He.
  - intros E.
    destruct (select_Raise_inv cv strict cs E)
      as [(_ & Hs & Hlen) | [(He & _) | (He & _)]];
      [ | discriminate He | discriminate He].
    split; [exact Hs | split; [exact Hc | ]].
    exists gray; split; [reflexivity | exact Hlen].
  - intros E.
    destruct (select_Raise_inv cv strict cs E)
      as [(He & _) | [(_ & Hnil) | (He & _)]];
      [discriminate He | | discriminate He].
    split; [exact Hc | ].
    exists gray; split; [reflexivity | ].
    intros c Hin; apply Qgtb_false.
    exact (@filter_nil_inv _ _ _ _ Hnil Hin).
Qed.

Lemma find_screen_outcome_conditions_witness :
  let cv :=
    Stub.prims [Stub.speck; Stub.small_square; Stub.large_square]
      (Ok (Stub.solid 40 40 Stub.white)) "" in
  GREEN <> BLACK /\ length Stub.large_square = 4%nat /\
  exists gray c,
    screen_checker.segmentation cv (Stub.solid 4 4 Stub.white) GREEN
    = Ok gray /\
    In c (findContours cv (threshold_otsu cv gray)) /\
    (4 < contourArea cv c)%Q /\
    Stub.large_square
    = approxPolyDP cv c (Qmult 0.01 (arcLength cv c true)) true.
Proof.
  cbv zeta.
  apply (proj1 (@find_screen_outcome_conditions
                  (Stub.prims [Stub.speck; Stub.small_square;
                               Stub.large_square]
                     (Ok (Stub.solid 40 40 Stub.white)) "")
                  (Stub.solid 4 4 Stub.white) GREEN false)).
  vm_compute; reflexivity.
Defined.

(** X2: in strict mode [find_screen] either raises [MultipleContoursError]
    or does exactly what it does in lenient mode. *)
Theorem find_screen_strict_or_lenient (cv : Prims) (photo : Photo)
    (color : Color) :
  screen_checker.find_screen cv photo color true
    = Raise MultipleContoursError \/
  screen_checker.find_screen cv photo color true
    = screen_checker.find_screen cv photo color false.
Proof.
  rewrite !find_screen_stages.
  destruct (Color_is color BLACK); [right; reflexivity | ].
  destruct (surviving_contours cv photo color) as [cs | e];
    [cbn [bind] | right; reflexivity].
  destruct (Nat.le_gt_cases (length cs) 1) as [H | H].
  - right; apply select_single; exact H.
  - left; apply select_strict_many; exact H.
Qed.

(** ** Which contour is chosen *)

Lemma max_from_keeps (A : Type) (key : A -> Q) (best : A) (l : list A) :
  (forall x, In x l -> (key x <= key best)%Q) ->
  max_from key best l = best.
Proof.
  revert best; induction l as [ | x l IH]; intros best H; [reflexivity | ].
  simpl.
  replace (Qgtb (key x) (key best)) with false
    by (symmetry; apply Qgtb_false, H; left; reflexivity).
  apply IH; intros y Hy; apply H; right; exact Hy.
Qed.

Lemma max_from_passes (A : Type) (key : A -> Q) (best c : A)
    (l1 l2 : list A) :
  (forall x, In x (best :: l1) -> (key x < key c)%Q) ->
  max_from key best (l1 ++ c :: l2) = max_from key c l2.
Proof.
  revert best; induction l1 as [ | x l1 IH]; intros best H; simpl.
  - replace (Qgtb (key c) (key best)) with true
      by (symmetry; apply Qgtb_true, H; left; reflexivity).
    reflexivity.
  - apply IH; intros y [<- | Hy].
    + destruct (Qgtb (key x) (key best)); apply H;
        [right; left | left]; reflexivity.
    + apply H; right; right; exact Hy.
Qed.

Lemma py_max_first (A : Type) (key : A -> Q) (c : A) (l1 l2 : list A) :
  (forall x, In x l1 -> (key x < key c)%Q) ->
  (forall x, In x l2 -> (key x <= key c)%Q) ->
  py_max key (l1 ++ c :: l2) = Ok c.
Proof.
  intros H1 H2; destruct l1 as [ | b l1]; simpl.
  - rewrite (max_from_keeps key c l2 H2); reflexivity.
  - rewrite (@max_from_passes A key b c l1 l2 H1).
    rewrite (max_from_keeps key c l2 H2); reflexivity.
Qed.

(** X3: of several surviving contours of the same, largest area the one
    that [findContours] lists first is the candidate: a contour that is
    larger than all before it and at least as large as all after it is
    the one approximated. *)
Theorem find_screen_first_largest (cv : Prims) (photo : Photo)
    (color : Color) (c : contour) (before after : list contour) :
  color <> BLACK ->
  surviving_contours cv photo color = Ok (before ++ c :: after) ->
  (forall c', In c' before -> (contourArea cv c' < contourArea cv c)%Q) ->
  (forall c', In c' after -> (contourArea cv c' <= contourArea cv c)%Q) ->
  screen_checker.find_screen cv photo color false =
    if Z.of_nat (length (screen_checker.approximate cv c)) =? 4
    then Ok (screen_checker.approximate cv c)
    else Raise ScreenNotFoundError.
Proof.
  intros Hc Hcs Hbefore Hafter.
  rewrite (find_screen_select cv photo false Hc Hcs).
  apply select_chosen, py_max_first; assumption.
Qed.

Lemma find_screen_first_largest_witness :
  screen_checker.find_screen
    (Stub.prims [Stub.speck; Stub.small_square; Stub.large_square;
                 Stub.large_square]
       (Ok (Stub.solid 40 40 Stub.white)) "")
    (Stub.solid 4 4 Stub.white) WHITE false
  = Ok Stub.large_square.
Proof.
  apply (@find_screen_first_largest
           (Stub.prims [Stub.speck; Stub.small_square; Stub.large_square;
                        Stub.large_square]
              (Ok (Stub.solid 40 40 Stub.white)) "")
           (Stub.solid 4 4 Stub.white) WHITE Stub.large_square
           [Stub.small_square] [Stub.large_square]).
  - discriminate.
  - vm_compute; reflexivity.
  - intros c' [<- | []]; vm_compute; reflexivity.
  - intros c' [<- | []]; vm_compute; discriminate.
Defined.

(** ** The older [find_screen] *)

Lemma filter_all (A : Type) (f : A -> bool) (l : list A) :
  (forall x, In x l -> f x = true) -> filter f l = l.
Proof.
  induction l as [ | x l IH]; intros H; [reflexivity | ]; simpl.
  rewrite (H x (or_introl eq_refl)), IH; [reflexivity | ].
  intros y Hy; apply H; right; exact Hy.
Qed.

(** X4: when every extracted contour is above the noise floor, the newer
    [find_screen] in lenient mode and the older [find_screen] give the
    same answer or raise the same exception. *)
Theorem find_screen_variants_agree (cv : Prims) (photo : Photo)
    (color : Color) :
  (forall gray c,
      screen_checker.segmentation cv photo color = Ok gray ->
      In c (findContours cv (threshold_otsu cv gray)) ->
      (4 < contourArea cv c)%Q) ->
  screen_checker.find_screen cv photo color false
  = main.find_screen cv photo color.
Proof.
  intros H.
  unfold screen_checker.find_screen, main.find_screen.
  destruct (Color_is color BLACK); [reflexivity | ].
  fold (screen_checker.segmentation cv photo color).
  destruct (screen_checker.segmentation cv photo color) as [gray | e] eqn:E;
    [cbn [bind andb] | reflexivity].
  rewrite filter_all; [reflexivity | ].
  intros c Hc; unfold screen_checker.above_noise_floor.
  apply Qgtb_true, (H gray c eq_refl Hc).
Qed.

Lemma find_screen_variants_agree_witness :
  screen_checker.find_screen
    (Stub.prims [Stub.small_square; Stub.large_square]
       (Ok (Stub.solid 40 40 Stub.white)) "")
    (Stub.solid 4 4 Stub.white) GREEN false
  = main.find_screen
      (Stub.prims [Stub.small_square; Stub.large_square]
         (Ok (Stub.solid 40 40 Stub.white)) "")
      (Stub.solid 4 4 Stub.white) GREEN.
Proof.
  apply find_screen_variants_agree.
  intros gray c Hgray Hin.
  injection Hgray as <-.
  destruct Hin as [<- | [<- | []]]; vm_compute; reflexivity.
Defined.

(** X5: what the outcome of a call of the older [find_screen] tells
    about the call.  A returned value has exactly four points, the
    colour is not black, and the points are the approximation of an
    extracted contour, of whatever area: there is no noise floor.  The
    invalid-colour error is raised for black and only for black.  The
    error of [max] is raised only when no contour at all is extracted.
    [MultipleContoursError] is never raised: there is no strict mode. *)
Theorem main_find_screen_outcome_conditions (cv : Prims) (photo : Photo)
    (color : Color) :
  (forall corners,
      main.find_screen cv photo color = Ok corners ->
      color <> BLACK /\ length corners = 4%nat /\
      exists gray c,
        screen_checker.segmentation cv photo color = Ok gray /\
        In c (findContours cv (threshold_otsu cv gray)) /\
        corners
        = approxPolyDP cv c (Qmult 0.01 (arcLength cv c true)) true) /\
  (main.find_screen cv photo color = Raise InvalidColorError
   <-> color = BLACK) /\
  (main.find_screen cv photo color = Raise MaxEmptyError ->
   color <> BLACK /\
   exists gray,
     screen_checker.segmentation cv photo color = Ok gray /\
     findContours cv (threshold_otsu cv gray) = []) /\
  main.find_screen cv photo color <> Raise MultipleContoursError.
Proof.
  unfold main.find_screen.
  destruct (Color_eq_dec color BLACK) as [-> | Hc].
  { change (Color_is BLACK BLACK) with true; cbv iota.
    repeat split; try discriminate; congruence. }
  pose proof Hc as Hc'; apply Color_is_false in Hc'; rewrite Hc'.
  fold (screen_checker.segmentation cv photo color).
  destruct (segmentation_defined cv photo Hc) as [gray ->]; cbn [bind].
  destruct (findContours cv (threshold_otsu cv gray)) as [ | c0 cs] eqn:E.
  { cbn [py_max bind].
    repeat split; try discriminate; try contradiction; try assumption.
    exists gray; split; [reflexivity | exact E]. }
  set (c := max_from (contourArea cv) c0 cs).
  assert (Hin : In c (c0 :: cs)) by apply max_from_In.
  change (py_max (contourArea cv) (c0 :: cs)) with (Ok c); cbn [bind].
  set (approx := approxPolyDP cv c _ true).
  destruct (Z.eqb_spec (Z.of_nat (length approx)) 4) as [E4 | E4];
    cbn [negb].
  - repeat split; try discriminate; try contradiction; try assumption.
    + injection H as <-; lia.
    + injection H as <-; exists gray, c; repeat split.
      rewrite E; exact Hin.
  - repeat split; try discriminate; try contradiction; try assumption.
Qed.

Lemma main_find_screen_outcome_conditions_witness :
  let cv :=
    Stub.prims [Stub.speck] (Ok (Stub.solid 40 40 Stub.white)) "" in
  RED <> BLACK /\ length Stub.speck = 4%nat /\
  exists gray c,
    screen_checker.segmentation cv (Stub.solid 4 4 Stub.white) RED
    = Ok gray /\
    In c (findContours cv (threshold_otsu cv gray)) /\
    Stub.speck = approxPolyDP cv c (Qmult 0.01 (arcLength cv c true)) true.
Proof.
  cbv zeta.
  apply (proj1 (@main_find_screen_outcome_conditions
                  (Stub.prims [Stub.speck]
                     (Ok (Stub.solid 40 40 Stub.white)) "")
                  (Stub.solid 4 4 Stub.white) RED)).
  vm_compute; reflexivity.
Defined.

(** ** Outcomes of [ocr_ssd] *)

(** X6: what the outcome of a call of [ocr_ssd] tells about the call.  A
    returned text means that [find_screen], called for a white screen in
    lenient mode, has returned four corners, that the transform of the
    photo at these corners has returned an image, and the text is what
    the recogniser read from that image, prepared, and stripped.  An
    exception of [find_screen] or of the transform ends the call with
    that same exception; and the call of [find_screen] raises neither
    the invalid-colour error nor [MultipleContoursError]. *)
Theorem ocr_ssd_outcome_conditions (cv : Prims) (photo : Photo) :
  (forall text,
      screen_checker.ocr_ssd cv photo = Ok text ->
      exists corners warped,
        screen_checker.find_screen cv photo WHITE false = Ok corners /\
        length corners = 4%nat /\
        four_point_transform cv photo corners = Ok warped /\
        text = strip cv
                 (image_to_string cv (screen_checker.prepare cv warped)
                    "lets" "--psm 8")) /\
  (forall e,
      screen_checker.find_screen cv photo WHITE false = Raise e ->
      screen_checker.ocr_ssd cv photo = Raise e) /\
  (forall corners e,
      screen_checker.find_screen cv photo WHITE false = Ok corners ->
      four_point_transform cv photo corners = Raise e ->
      screen_checker.ocr_ssd cv photo = Raise e) /\
  screen_checker.find_screen cv photo WHITE false <> Raise InvalidColorError /\
  screen_checker.find_screen cv photo WHITE false
  <> Raise MultipleContoursError.
Proof.
  unfold screen_checker.ocr_ssd, screen_checker.strict_default.
  split; [ | split; [ | split; [ | split]]].
  - intros text.
    destruct (screen_checker.find_screen cv photo WHITE false)
      as [corners | e] eqn:Hfind; cbn [bind]; [ | discriminate].
    pose proof (find_screen_Ok_inv cv photo WHITE false Hfind) as [_ Hlen].
    destruct (four_point_transform cv photo corners) as [warped | e] eqn:E;
      cbn [bind]; [ | discriminate].
    intros H; injection H as <-.
    exists corners, warped; repeat split; [exact Hlen | exact E].
  - intros e ->; reflexivity.
  - intros corners e -> H; cbn [bind]; rewrite H; reflexivity.
  - rewrite find_screen_stages.
    change (Color_is WHITE BLACK) with false; cbv iota.
    destruct (surviving_contours cv photo WHITE) as [cs | e] eqn:E.
    + cbn [bind]; intros H.
      destruct (select_Raise_inv cv false cs H)
        as [(He & _) | [(He & _) | (He & _)]]; discriminate He.
    + unfold surviving_contours in E; discriminate E.
  - rewrite find_screen_stages.
    change (Color_is WHITE BLACK) with false; cbv iota.
    destruct (surviving_contours cv photo WHITE) as [cs | e] eqn:E.
    + cbn [bind]; intros H.
      destruct (select_Raise_inv cv false cs H)
        as [(_ & Hs & _) | [(He & _) | (He & _)]]; discriminate.
    + unfold surviving_contours in E; discriminate E.
Qed.

Lemma ocr_ssd_outcome_conditions_witness :
  let cv :=
    Stub.prims [Stub.small_square; Stub.large_square]
      (Ok (Stub.solid 40 40 Stub.white)) "8.8" in
  exists corners warped,
    screen_checker.find_screen cv (Stub.solid 4 4 Stub.white) WHITE false
    = Ok corners /\
    length corners = 4%nat /\
    four_point_transform cv (Stub.solid 4 4 Stub.white) corners = Ok warped /\
    "8.8"%string
    = strip cv
        (image_to_string cv (screen_checker.prepare cv warped)
           "lets" "--psm 8").
Proof.
  cbv zeta.
  apply (proj1 (@ocr_ssd_outcome_conditions
                  (Stub.prims [Stub.small_square; Stub.large_square]
                     (Ok (Stub.solid 40 40 Stub.white)) "8.8")
                  (Stub.solid 4 4 Stub.white))).
  vm_compute; reflexivity.
Defined.

(** ** [get_lengths] *)

(** X7: with four rows or more [get_lengths] returns the four sides of the
    quadrilateral of the first four points, in order, the last one
    closing it; further rows are ignored.  With fewer than four rows it
    raises [IndexError] for the first row that is missing. *)
Theorem get_lengths_outcome (norm : point -> Q) (corners : contour) :
  match corners with
  | a :: b :: c :: d :: _ =>
      screen_checker.get_lengths norm corners
      = Ok [norm (difference a b); norm (difference b c);
            norm (difference c d); norm (difference d a)]
  | _ =>
      screen_checker.get_lengths norm corners
      = Raise (IndexError
                 ("index " ++ show_nat (length corners)
                  ++ " is out of bounds for axis 0 with size "
                  ++ show_nat (length corners)))
  end.
Proof.
  destruct corners as [ | a [ | b [ | c [ | d rest]]]]; reflexivity.
Qed.

(** X8: what [find_screen] returns can always be measured: [get_lengths]
    on its result does not raise and gives four lengths. *)
Theorem get_lengths_of_find_screen (cv : Prims) (norm : point -> Q)
    (photo : Photo) (color : Color) (strict : bool) (corners : contour) :
  screen_checker.find_screen cv photo color strict = Ok corners ->
  exists s0 s1 s2 s3,
    screen_checker.get_lengths norm corners = Ok [s0; s1; s2; s3].
Proof.
  intros H.
  pose proof (find_screen_Ok_inv cv photo color strict H) as [_ Hlen].
  destruct corners as [ | a [ | b [ | c [ | d [ | e rest]]]]];
    try discriminate Hlen.
  do 4 eexists; reflexivity.
Qed.

Lemma get_lengths_of_find_screen_witness :
  exists s0 s1 s2 s3,
    screen_checker.get_lengths Stub.floor_norm Stub.large_square
    = Ok [s0; s1; s2; s3].
Proof.
  apply (@get_lengths_of_find_screen
           (Stub.prims [Stub.small_square; Stub.large_square]
              (Ok (Stub.solid 40 40 Stub.white)) "")
           Stub.floor_norm (Stub.solid 4 4 Stub.white) WHITE false
           Stub.large_square).
  vm_compute; reflexivity.
Defined.

(** X9: starting the quadrilateral from its second corner makes
    [get_lengths] start from the second side: the lengths are the same,
    in the same cyclic order. *)
Theorem get_lengths_rotate (norm : point -> Q) (corners : contour)
    (sides : list Q) :
  length corners = 4%nat ->
  screen_checker.get_lengths norm corners = Ok sides ->
  screen_checker.get_lengths norm (rotate1 corners) = Ok (rotate1 sides).
Proof.
  intros Hlen H.
  destruct corners as [ | a [ | b [ | c [ | d [ | e rest]]]]];
    try discriminate Hlen.
  injection H as <-; reflexivity.
Qed.

Lemma get_lengths_rotate_witness :
  screen_checker.get_lengths Stub.floor_norm (rotate1 Stub.quadrilateral)
  = Ok (rotate1 [Qmake 30 1; Qmake 22 1; Qmake 36 1; Qmake 41 1]).
Proof.
  apply get_lengths_rotate; [reflexivity | vm_compute; reflexivity].
Defined.

(** ** Slices inside the array *)

Lemma slice_bound_in_range (n i : Z) : 0 <= i <= n -> slice_bound n i = i.
Proof.
  intros H; unfold slice_bound.
  replace (i <? 0) with false by (symmetry; apply Z.ltb_ge; lia); lia.
Qed.

Lemma py_slice_in_range (A : Type) (l : list A) (a b : Z) :
  0 <= a <= b -> b <= Z.of_nat (length l) ->
  py_slice a b l = firstn (Z.to_nat (b - a)) (skipn (Z.to_nat a) l).
Proof.
  intros Hab Hb; unfold py_slice; cbv zeta.
  rewrite !slice_bound_in_range by lia; reflexivity.
Qed.

Lemma length_py_slice_in_range (A : Type) (l : list A) (a b : Z) :
  0 <= a <= b -> b <= Z.of_nat (length l) ->
  length (py_slice a b l) = Z.to_nat (b - a).
Proof.
  intros Hab Hb; rewrite py_slice_in_range by assumption.
  rewrite length_firstn, length_skipn; lia.
Qed.

Lemma nth_error_py_slice_in_range (A : Type) (l : list A) (a b : Z)
    (i : nat) :
  0 <= a <= b -> b <= Z.of_nat (length l) ->
  (i < Z.to_nat (b - a))%nat ->
  nth_error (py_slice a b l) i = nth_error l (Z.to_nat a + i).
Proof.
  intros Hab Hb Hi; rewrite py_slice_in_range by assumption.
  rewrite nth_error_firstn, nth_error_skipn.
  replace (i <? Z.to_nat (b - a))%nat with true
    by (symmetry; apply Nat.ltb_lt; exact Hi).
  reflexivity.
Qed.

(** X15: line 183 of [ocr_ssd], [binary[y : y + h, x : x + w]], for a box
    that lies inside the image: the crop has [h] rows of [w] pixels, and
    its pixel at row [i] and column [j] is the image's pixel at row
    [y + i] and column [x + j]. *)
Theorem crop_box (A : Type) (H W : nat) (img : image A) (x y w h : Z) :
  shape H W img ->
  0 <= x -> 0 <= w -> x + w <= Z.of_nat W ->
  0 <= y -> 0 <= h -> y + h <= Z.of_nat H ->
  shape (Z.to_nat h) (Z.to_nat w) (crop y (y + h) x (x + w) img) /\
  forall i j,
    (i < Z.to_nat h)%nat -> (j < Z.to_nat w)%nat ->
    at2 (crop y (y + h) x (x + w) img) i j
    = at2 img (Z.to_nat y + i) (Z.to_nat x + j).
Proof.
  intros Hshape Hx Hw HxW Hy Hh HyH.
  pose proof Hshape as [Hlen Hrows].
  assert (Hrow : forall row, In row (py_slice y (y + h) img) ->
                             length row = W).
  { intros row Hin; destruct (In_nth_error _ _ Hin) as [i Hi].
    destruct (Nat.lt_ge_cases i (Z.to_nat (y + h - y))) as [Hlt | Hge].
    - rewrite nth_error_py_slice_in_range in Hi by lia.
      exact (shape_row Hshape _ Hi).
    - assert (Hnone : nth_error (py_slice y (y + h) img) i = None).
      { apply nth_error_None; rewrite length_py_slice_in_range by lia.
        exact Hge. }
      congruence. }
  split; [split | ].
  - unfold crop; rewrite length_map, length_py_slice_in_range by lia.
    f_equal; lia.
  - unfold crop; apply Forall_forall; intros row' Hin.
    apply in_map_iff in Hin as (row & <- & Hin).
    rewrite length_py_slice_in_range by (rewrite ?(Hrow row Hin); lia).
    f_equal; lia.
  - intros i j Hi Hj; unfold at2, crop.
    rewrite nth_error_map, nth_error_py_slice_in_range by lia.
    destruct (nth_error img (Z.to_nat y + i)) as [row | ] eqn:Hrow';
      cbn [option_map]; [ | reflexivity].
    apply nth_error_py_slice_in_range;
      rewrite ?(shape_row Hshape _ Hrow'); lia.
Qed.

Lemma crop_box_witness :
  shape 2 3 (crop 1 (1 + 2) 1 (1 + 3) (Stub.solid 4 5 Stub.white)).
Proof.
  apply (@crop_box pixel 4 5 (Stub.solid 4 5 Stub.white) 1 1 3 2);
    try lia.
  apply shape_solid.
Defined.

(** ** The older [check_screen] *)

Lemma fold_max_ge_init (l : list Z) (x : Z) : x <= fold_left Z.max l x.
Proof.
  revert x; induction l as [ | y l IH]; intros x; simpl; [lia | ].
  specialize (IH (Z.max x y)); lia.
Qed.

Lemma fold_max_ge (l : list Z) (x y : Z) :
  In y (x :: l) -> y <= fold_left Z.max l x.
Proof.
  revert x; induction l as [ | z l IH]; intros x [<- | H].
  - simpl; lia.
  - destruct H.
  - apply fold_max_ge_init.
  - simpl; destruct H as [<- | H].
    + pose proof (fold_max_ge_init l (Z.max x z)); lia.
    + apply IH; right; exact H.
Qed.

Lemma fold_max_In (l : list Z) (x : Z) : In (fold_left Z.max l x) (x :: l).
Proof.
  revert x; induction l as [ | z l IH]; intros x; simpl; [left; reflexivity | ].
  destruct (IH (Z.max x z)) as [H | H]; [ | right; right; exact H].
  rewrite <- H.
  destruct (Z.max_spec x z) as [[_ E] | [_ E]]; rewrite E;
    [right; left | left]; reflexivity.
Qed.

Lemma np_max_u8_spec (a : image Z) :
  pixels a <> [] ->
  exists m, main.np_max_u8 a = Ok m /\ In m (pixels a) /\
            forall x, In x (pixels a) -> x <= m.
Proof.
  unfold main.np_max_u8; destruct (pixels a) as [ | x l]; [congruence | ].
  intros _; exists (fold_left Z.max l x); split; [reflexivity | split].
  - apply fold_max_In.
  - intros y Hy; apply fold_max_ge; exact Hy.
Qed.

Lemma np_max_u8_unique (a : image Z) (m : Z) :
  In m (pixels a) -> (forall x, In x (pixels a) -> x <= m) ->
  main.np_max_u8 a = Ok m.
Proof.
  intros Hin Hge.
  assert (Hne : pixels a <> []) by (intros E; rewrite E in Hin; exact Hin).
  destruct (@np_max_u8_spec _ Hne) as (m' & -> & Hin' & Hge').
  f_equal; specialize (Hge m' Hin'); specialize (Hge' m Hin); lia.
Qed.

Lemma np_max_u8_empty (a : image Z) :
  pixels a = [] -> main.np_max_u8 a = Raise ZeroSizeReductionError.
Proof. unfold main.np_max_u8; intros ->; reflexivity. Qed.

Lemma map2d_id (A : Type) (img : image A) : map2d (fun p => p) img = img.
Proof.
  unfold map2d; rewrite (map_ext _ (fun row => row)); [apply map_id | ].
  intros row; apply map_id.
Qed.

Section OlderCheckScreen.

Variable cv : Prims.
Variable color : Color.

(** What lines 94-99 make of a cropped view that has a pixel. *)
Lemma brighten_normalised (cropped : image pixel) :
  pixels cropped <> [] ->
  exists m,
    (color <> BLACK ->
     main.np_max_u8 (map2d (channel_of 2) (map2d (BGR2HSV_u8 cv) cropped))
     = Ok m) /\
    main.brighten cv color cropped
    = Ok (map2d (normalised cv color m) cropped).
Proof.
  intros Hne; unfold main.brighten, normalised.
  destruct (Color_is color BLACK) eqn:E; cbn [negb].
  - exists 0; split.
    + intros Hc; apply Color_is_true in E; contradiction.
    + rewrite map2d_id; reflexivity.
  - rewrite (@cvtColor_nonempty _ _ _ _ Hne); cbn [bind].
    assert (Hv : pixels (map2d (channel_of 2)
                           (map2d (BGR2HSV_u8 cv) cropped)) <> []).
    { rewrite !pixels_map2d; intros H.
      apply map_eq_nil, map_eq_nil in H; exact (Hne H). }
    destruct (@np_max_u8_spec _ Hv) as (m & Hm & _).
    exists m; split; [intros _; exact Hm | ].
    rewrite Hm; cbn [bind].
    rewrite cvtColor_nonempty
      by (intros H; do 2 apply pixels_map2d_nil in H; exact (Hne H)).
    rewrite !map2d_map2d; reflexivity.
Qed.

(** Of a cropped view without a pixel the first conversion fails. *)
Lemma brighten_empty (cropped : image pixel) :
  pixels cropped = [] ->
  main.brighten cv color cropped = Ok cropped \/
  main.brighten cv color cropped = Raise (cv2_error "cvtColor").
Proof.
  intros He; unfold main.brighten.
  destruct (negb (Color_is color BLACK)); [right | left; reflexivity].
  rewrite (@cvtColor_empty _ _ _ _ He); reflexivity.
Qed.

Variable photo : Photo.
Variable corners : contour.

Lemma main_check_screen_nonempty (warped : image pixel) :
  four_point_transform cv photo corners = Ok warped ->
  pixels (crop 16 (-16) 16 (-16) warped) <> [] ->
  exists m,
    (color <> BLACK ->
     main.np_max_u8
       (map2d (channel_of 2)
          (map2d (BGR2HSV_u8 cv) (crop 16 (-16) 16 (-16) warped))) = Ok m) /\
    main.check_screen cv photo color corners
    = np_max (map2d (deviation_u8 cv color)
                (map2d (normalised cv color m)
                   (crop 16 (-16) 16 (-16) warped))).
Proof.
  intros H Hne; unfold main.check_screen; rewrite H; cbn [bind].
  destruct (@brighten_normalised _ Hne) as (m & Hm & ->); cbn [bind].
  exists m; split; [exact Hm | ].
  rewrite cvtColor_nonempty
    by (intros E; apply pixels_map2d_nil in E; exact (Hne E)).
  cbn [bind]; rewrite !map2d_map2d; reflexivity.
Qed.

Lemma main_check_screen_empty (warped : image pixel) :
  four_point_transform cv photo corners = Ok warped ->
  pixels (crop 16 (-16) 16 (-16) warped) = [] ->
  main.check_screen cv photo color corners = Raise (cv2_error "cvtColor").
Proof.
  intros H He; unfold main.check_screen; rewrite H; cbn [bind].
  destruct (@brighten_empty _ He) as [-> | ->]; [cbn [bind] | reflexivity].
  rewrite (@cvtColor_empty _ _ _ _ He); reflexivity.
Qed.

Lemma main_check_screen_is_ok (warped : image pixel) :
  four_point_transform cv photo corners = Ok warped ->
  is_ok (main.check_screen cv photo color corners)
  = negb (Nat.eqb (length (pixels (crop 16 (-16) 16 (-16) warped))) 0).
Proof.
  intros H.
  destruct (pixels (crop 16 (-16) 16 (-16) warped)) as [ | p l] eqn:E.
  - rewrite (@main_check_screen_empty _ H E); reflexivity.
  - assert (Hne : pixels (crop 16 (-16) 16 (-16) warped) <> [])
      by (rewrite E; discriminate).
    destruct (@main_check_screen_nonempty _ H Hne) as (m & _ & ->).
    rewrite is_ok_np_max, !pixels_map2d, !length_map, E; reflexivity.
Qed.

End OlderCheckScreen.

(** X16: whether [check_screen] returns depends on the photo and the corners
    alone: not on the colour (black is scored like any other), not on
    the method, and not on the variant, old or new. *)
Theorem check_screen_returns_alike (cv : Prims) (photo : Photo)
    (corners : contour) (c1 c2 : Color) (m1 m2 : DeltaEMethod) :
  is_ok (screen_checker.check_screen cv photo c1 corners m1)
  = is_ok (screen_checker.check_screen cv photo c2 corners m2) /\
  is_ok (main.check_screen cv photo c1 corners)
  = is_ok (main.check_screen cv photo c2 corners) /\
  is_ok (main.check_screen cv photo c1 corners)
  = is_ok (screen_checker.check_screen cv photo c1 corners m1).
Proof.
  destruct (four_point_transform cv photo corners) as [warped | e] eqn:H.
  - rewrite !(@main_check_screen_is_ok cv _ photo corners warped H).
    rewrite !(@check_screen_is_ok cv photo _ corners _ warped H).
    repeat split.
  - rewrite !(@check_screen_transform_fails cv photo _ corners _ e H).
    unfold main.check_screen; rewrite H; repeat split.
Qed.

(** X17: the older [check_screen] returns a score exactly when the rectified
    image is more than 32 pixels high and more than 32 pixels wide. *)
Theorem main_check_screen_needs_margin (cv : Prims) (photo : Photo)
    (color : Color) (corners : contour) (warped : image pixel) (h w : nat) :
  four_point_transform cv photo corners = Ok warped ->
  shape h w warped ->
  is_ok (main.check_screen cv photo color corners) = true
  <-> (32 < h /\ 32 < w)%nat.
Proof.
  intros Hwarp Hshape.
  rewrite (@main_check_screen_is_ok cv color photo corners warped Hwarp).
  split.
  - intros Hok.
    destruct (Nat.le_gt_cases h 32) as [Hh | Hh].
    { rewrite (pixels_crop_trim_empty Hshape (or_introl Hh)) in Hok.
      discriminate Hok. }
    destruct (Nat.le_gt_cases w 32) as [Hw | Hw].
    { rewrite (pixels_crop_trim_empty Hshape (or_intror Hw)) in Hok.
      discriminate Hok. }
    split; assumption.
  - intros [Hh Hw].
    pose proof (pixels_crop_trim_nonempty Hshape Hh Hw) as Hne.
    destruct (pixels (crop 16 (-16) 16 (-16) warped)); [congruence | ].
    reflexivity.
Qed.

Lemma main_check_screen_needs_margin_witness :
  is_ok
    (main.check_screen (Stub.prims [] (Ok (Stub.solid 40 33 Stub.white)) "")
       (Stub.solid 4 4 Stub.white) BLUE Stub.large_square) = true.
Proof.
  apply (@main_check_screen_needs_margin
           (Stub.prims [] (Ok (Stub.solid 40 33 Stub.white)) "")
           (Stub.solid 4 4 Stub.white) BLUE Stub.large_square
           (Stub.solid 40 33 Stub.white) 40 33).
  - reflexivity.
  - apply shape_solid.
  - split; lia.
Defined.

(** X18: line 98 of [main.py] on an 8-bit array with a pixel: the addition
    never wraps around, it leaves the first two channels alone, adds the
    same amount to every value, and the largest value becomes 255. *)
Theorem brighten_full_scale (hsv : image pixel) (m : Z) :
  (forall p, In p (pixels hsv) -> 0 <= channel_of 2 p <= 255) ->
  main.np_max_u8 (map2d (channel_of 2) hsv) = Ok m ->
  main.np_max_u8
    (map2d (channel_of 2) (map2d (main.add_to_V (255 - m)) hsv)) = Ok 255 /\
  forall i j p,
    at2 hsv i j = Some p ->
    at2 (map2d (main.add_to_V (255 - m)) hsv) i j
    = Some (fst (fst p), snd (fst p), channel_of 2 p + (255 - m)) /\
    0 <= channel_of 2 p + (255 - m) <= 255.
Proof.
  intros Hrange Hm.
  assert (Hne : pixels (map2d (channel_of 2) hsv) <> []).
  { intros E; rewrite (np_max_u8_empty _ E) in Hm; discriminate Hm. }
  destruct (@np_max_u8_spec _ Hne) as (m' & Hm' & Hin & Hge).
  rewrite Hm in Hm'; injection Hm' as <-.
  rewrite pixels_map2d in Hin, Hge.
  apply in_map_iff in Hin as (pm & Hpm & Hin).
  assert (Hm_range : 0 <= m <= 255) by (rewrite <- Hpm; apply Hrange, Hin).
  assert (Hadd : forall p, In p (pixels hsv) ->
                   main.add_to_V (255 - m) p
                   = (fst (fst p), snd (fst p), channel_of 2 p + (255 - m))
                   /\ 0 <= channel_of 2 p + (255 - m) <= 255).
  { intros [[h s] v] Hp.
    pose proof (Hrange _ Hp) as Hv.
    pose proof (Hge _ (in_map (channel_of 2) _ _ Hp)) as Hle.
    cbn [channel_of fst snd] in *.
    change (2 =? 0) with false in *; change (2 =? 1) with false in *.
    cbv iota in *; unfold main.add_to_V.
    rewrite Z.mod_small by lia; split; [reflexivity | lia]. }
  split.
  - apply np_max_u8_unique.
    + rewrite !pixels_map2d; apply in_map_iff.
      exists (main.add_to_V (255 - m) pm); split; [ | apply in_map, Hin].
      rewrite (proj1 (Hadd pm Hin)).
      cbn [channel_of]; change (2 =? 0) with false;
        change (2 =? 1) with false; cbv iota; lia.
    + intros x Hx; rewrite !pixels_map2d in Hx.
      apply in_map_iff in Hx as (q & <- & Hq).
      apply in_map_iff in Hq as (p & <- & Hp).
      rewrite (proj1 (Hadd p Hp)).
      cbn [channel_of]; change (2 =? 0) with false;
        change (2 =? 1) with false; cbv iota.
      exact (proj2 (proj2 (Hadd p Hp))).
  - intros i j p Hp.
    assert (Hin' : In p (pixels hsv))
      by (apply in_pixels_at2; exists i, j; exact Hp).
    rewrite at2_map2d, Hp; cbn [option_map].
    rewrite (proj1 (Hadd p Hin')); split; [reflexivity | ].
    exact (proj2 (Hadd p Hin')).
Qed.

Lemma brighten_full_scale_witness :
  main.np_max_u8
    (map2d (channel_of 2)
       (map2d (main.add_to_V (255 - 200))
          [[(10, 20, 200); (30, 40, 100)]])) = Ok 255.
Proof.
  apply (@brighten_full_scale [[(10, 20, 200); (30, 40, 100)]] 200).
  - intros p [<- | [<- | []]]; cbn; lia.
  - reflexivity.
Defined.

(** X19: the older [check_screen], for a rectified image more than 32 pixels
    high and wide.  Over the pixels at least 16 away from every edge let
    [m] be the largest third component of the HSV conversion.  For a
    colour other than black a pixel is converted to HSV, [255 - m] is
    added to its third component modulo 256, and it is converted back;
    for black the pixel is taken as it is.  The score is the largest
    [delta_E], over those pixels, between the Lab conversion of the
    pixel so prepared and the Lab conversion of the colour's 8-bit
    reference triple: it bounds each of them and is one of them. *)
Theorem main_check_screen_maximum (cv : Prims) (photo : Photo)
    (color : Color) (corners : contour) (warped : image pixel) (h w : nat) :
  four_point_transform cv photo corners = Ok warped ->
  shape h w warped ->
  (32 < h)%nat ->
  (32 < w)%nat ->
  let reference :=
    cvt_single_color_u8 cv
      match color with
      | BLUE => (255, 0, 0)
      | GREEN => (0, 255, 0)
      | RED => (0, 0, 255)
      | WHITE => (255, 255, 255)
      | BLACK => (0, 0, 0)
      end in
  let prepared (m : Z) (p : pixel) : pixel :=
    match color with
    | BLACK => p
    | _ =>
        HSV2BGR_u8 cv
          (fst (fst (BGR2HSV_u8 cv p)), snd (fst (BGR2HSV_u8 cv p)),
           (snd (BGR2HSV_u8 cv p) + (255 - m)) mod 256)
    end in
  let score (m : Z) (p : pixel) : Q :=
    delta_E_u8 cv (BGR2LAB_u8 cv (prepared m p)) reference in
  exists m v,
    (color <> BLACK ->
     (forall i j p,
         (16 <= i < h - 16)%nat -> (16 <= j < w - 16)%nat ->
         at2 warped i j = Some p -> snd (BGR2HSV_u8 cv p) <= m) /\
     (exists i j p,
         (16 <= i < h - 16)%nat /\ (16 <= j < w - 16)%nat /\
         at2 warped i j = Some p /\ snd (BGR2HSV_u8 cv p) = m)) /\
    main.check_screen cv photo color corners = Ok v /\
    (forall i j p,
        (16 <= i < h - 16)%nat -> (16 <= j < w - 16)%nat ->
        at2 warped i j = Some p -> (score m p <= v)%Q) /\
    (exists i j p,
        (16 <= i < h - 16)%nat /\ (16 <= j < w - 16)%nat /\
        at2 warped i j = Some p /\ v = score m p).
Proof.
  intros Hwarp Hshape Hh Hw reference prepared score.
  pose proof (pixels_crop_trim_nonempty Hshape Hh Hw) as Hne.
  destruct (@main_check_screen_nonempty cv color photo corners warped
              Hwarp Hne) as (m & Hm & Hcall).
  assert (Hscore : forall p, deviation_u8 cv color (normalised cv color m p)
                             = score m p).
  { intros p; unfold score, prepared, reference, deviation_u8, normalised,
      brightened, main.add_to_V.
    destruct (BGR2HSV_u8 cv p) as [[hh s] v].
    destruct color; reflexivity. }
  assert (Hvalue : forall p, channel_of 2 (BGR2HSV_u8 cv p)
                             = snd (BGR2HSV_u8 cv p)).
  { intros p; destruct (BGR2HSV_u8 cv p) as [[hh s] v]; reflexivity. }
  set (scores := map2d (deviation_u8 cv color)
                   (map2d (normalised cv color m)
                      (crop 16 (-16) 16 (-16) warped))) in *.
  assert (Hs : pixels scores
               = map (score m) (pixels (crop 16 (-16) 16 (-16) warped))).
  { unfold scores; rewrite !pixels_map2d, map_map.
    apply map_ext; exact Hscore. }
  assert (Hne' : pixels scores <> []).
  { rewrite Hs; intros E; apply map_eq_nil in E; exact (Hne E). }
  destruct (np_max_spec _ Hne') as (v & Hv & Hin & Hge).
  exists m, v; split; [ | split; [ | split]].
  - intros Hc; specialize (Hm Hc).
    set (values := map2d (channel_of 2)
                     (map2d (BGR2HSV_u8 cv)
                        (crop 16 (-16) 16 (-16) warped))) in *.
    assert (Hvs : pixels values
                  = map (fun p => snd (BGR2HSV_u8 cv p))
                      (pixels (crop 16 (-16) 16 (-16) warped))).
    { unfold values; rewrite !pixels_map2d, map_map.
      apply map_ext; exact Hvalue. }
    assert (Hnv : pixels values <> []).
    { rewrite Hvs; intros E; apply map_eq_nil in E; exact (Hne E). }
    destruct (@np_max_u8_spec _ Hnv) as (m' & Hm' & Hin' & Hge').
    rewrite Hm in Hm'; injection Hm' as <-.
    rewrite Hvs in Hin', Hge'; split.
    + intros i j p Hi Hj Hp; apply Hge'.
      apply (in_map (fun p => snd (BGR2HSV_u8 cv p))).
      apply (in_pixels_crop_trim Hshape); exists i, j; repeat split;
        try lia; exact Hp.
    + apply in_map_iff in Hin' as (p & Hp & Hin').
      apply (in_pixels_crop_trim Hshape) in Hin' as (i & j & Hi & Hj & Hat).
      exists i, j, p; repeat split; try lia; exact Hat.
  - rewrite Hcall; exact Hv.
  - intros i j p Hi Hj Hp; apply Hge; rewrite Hs.
    apply (in_map (score m)).
    apply (in_pixels_crop_trim Hshape); exists i, j; repeat split;
      try lia; exact Hp.
  - rewrite Hs in Hin; apply in_map_iff in Hin as (p & Hp & Hin).
    apply (in_pixels_crop_trim Hshape) in Hin as (i & j & Hi & Hj & Hat).
    exists i, j, p; repeat split; try lia; [exact Hat | symmetry; exact Hp].
Qed.

Lemma shape_patch :
  shape 40 40 (Stub.patch 40 40 20 20 (10, 20, 200) (10, 20, 100)).
Proof. split; [reflexivity | repeat constructor]. Defined.

Lemma main_check_screen_maximum_witness :
  exists v,
    main.check_screen
      (Stub.prims []
         (Ok (Stub.patch 40 40 20 20 (10, 20, 200) (10, 20, 100))) "")
      (Stub.solid 4 4 Stub.white) WHITE Stub.large_square = Ok v /\
    (580 <= v)%Q.
Proof.
  pose proof (@main_check_screen_maximum
                (Stub.prims []
                   (Ok (Stub.patch 40 40 20 20 (10, 20, 200) (10, 20, 100)))
                   "")
                (Stub.solid 4 4 Stub.white) WHITE Stub.large_square
                (Stub.patch 40 40 20 20 (10, 20, 200) (10, 20, 100)) 40 40
                eq_refl shape_patch) as H.
  cbv zeta in H.
  destruct H as (m & v & Hm & Hv & Hbound & _); [lia | lia | ].
  destruct Hm as (Hle & i & j & p & _ & _ & Hat & Hp); [discriminate | ].
  assert (Hall : forallb (fun q : pixel => (snd q =? 200) || (snd q =? 100))
                   (pixels (Stub.patch 40 40 20 20 (10, 20, 200)
                              (10, 20, 100))) = true)
    by (vm_compute; reflexivity).
  rewrite forallb_forall in Hall.
  assert (Hin : In p (pixels (Stub.patch 40 40 20 20 (10, 20, 200)
                                (10, 20, 100))))
    by (apply in_pixels_at2; exists i, j; exact Hat).
  apply Hall in Hin.
  change (snd p = m) in Hp.
  assert (H200 : 200 <= m)
    by (apply (Hle 16%nat 16%nat (10, 20, 200)); [lia | lia | reflexivity]).
  assert (Hm200 : m = 200).
  { apply Bool.orb_true_iff in Hin as [E | E]; apply Z.eqb_eq in E; lia. }
  clear Hle Hp Hin Hat Hall H200; subst m.
  exists v; split; [exact Hv | ].
  refine (Qle_trans _ _ _ _
            (Hbound 20%nat 20%nat (10, 20, 100) _ _ eq_refl)); [ | lia | lia].
  vm_compute; discriminate.
Defined.

(** ** Calls repeated on one store *)

Section Repeat.

Import Store.

Variable cv : Prims.
Variable h : heap.
Variable p : loc.
Variable img : Photo.
Hypothesis Hphoto : nth_error h p = Some (U8x3 img).

Lemma photo_kept (A : Type) (m : M A) :
  frames (length h) m (fun _ => True) ->
  nth_error (snd (m h)) p = Some (U8x3 img).
Proof.
  intros Hf; destruct (Hf h (le_n _)) as [Hframed _].
  rewrite (StoreFacts.framed_lookup Hframed); [exact Hphoto | ].
  apply nth_error_Some; rewrite Hphoto; discriminate.
Qed.

End Repeat.

(** X20: a call leaves nothing behind that a later call could see: run a
    second time on the store the first run has left, each function
    returns what it returned the first time.  This includes the older
    [check_screen], which brightens an array in place. *)
Theorem calls_repeatable (cv : Prims) (h : Store.heap) (p : Store.loc)
    (img : Photo) (color : Color) (strict : bool) (corners : contour)
    (method : DeltaEMethod) :
  nth_error h p = Some (Store.U8x3 img) ->
  let photo := Store.whole p in
  fst (store_screen_checker.find_screen cv photo color strict
         (snd (store_screen_checker.find_screen cv photo color strict h)))
  = fst (store_screen_checker.find_screen cv photo color strict h) /\
  fst (store_screen_checker.check_screen cv photo color corners method
         (snd (store_screen_checker.check_screen cv photo color corners
                 method h)))
  = fst (store_screen_checker.check_screen cv photo color corners method h) /\
  fst (store_screen_checker.ocr_ssd cv photo
         (snd (store_screen_checker.ocr_ssd cv photo h)))
  = fst (store_screen_checker.ocr_ssd cv photo h) /\
  fst (store_main.find_screen cv photo color
         (snd (store_main.find_screen cv photo color h)))
  = fst (store_main.find_screen cv photo color h) /\
  fst (store_main.check_screen cv photo color corners
         (snd (store_main.check_screen cv photo color corners h)))
  = fst (store_main.check_screen cv photo color corners h).
Proof.
  intros Hphoto photo; subst photo.
  repeat split.
  - rewrite (@StoreValues.find_screen_value cv h p img Hphoto).
    apply StoreValues.find_screen_value, (@photo_kept h p img Hphoto).
    apply StoreFacts.frames_find_screen.
  - rewrite (@StoreValues.check_screen_value cv h p img Hphoto).
    apply StoreValues.check_screen_value, (@photo_kept h p img Hphoto).
    apply StoreFacts.frames_check_screen.
  - rewrite (@StoreValues.ocr_ssd_value cv h p img Hphoto).
    apply StoreValues.ocr_ssd_value, (@photo_kept h p img Hphoto).
    apply StoreFacts.frames_ocr_ssd.
  - rewrite (@StoreValues.main_find_screen_value cv h p img Hphoto).
    apply StoreValues.main_find_screen_value, (@photo_kept h p img Hphoto).
    apply StoreFacts.frames_main_find_screen.
  - rewrite (@StoreValues.main_check_screen_value cv h p img Hphoto).
    apply StoreValues.main_check_screen_value, (@photo_kept h p img Hphoto).
    apply StoreFacts.frames_main_check_screen.
Qed.

Lemma calls_repeatable_witness :
  let cv := Stub.prims [] (Ok (Stub.solid 40 40 (10, 20, 200))) "" in
  let h := [Store.U8x3 (Stub.solid 4 4 Stub.white)] in
  fst (store_main.check_screen cv (Store.whole 0%nat) WHITE Stub.large_square
         (snd (store_main.check_screen cv (Store.whole 0%nat) WHITE
                 Stub.large_square h)))
  = fst (store_main.check_screen cv (Store.whole 0%nat) WHITE
           Stub.large_square h).
Proof.
  cbv zeta.
  apply (@calls_repeatable
           (Stub.prims [] (Ok (Stub.solid 40 40 (10, 20, 200))) "")
           [Store.U8x3 (Stub.solid 4 4 Stub.white)] 0%nat
           (Stub.solid 4 4 Stub.white) WHITE false Stub.large_square
           CIE_2000).
  reflexivity.
Defined.

(** ** [get_size] and translation *)

Lemma roll1_map (A B : Type) (f : A -> B) (l : list A) :
  roll1 (map f l) = map f (roll1 l).
Proof.
  destruct l as [ | a l _] using rev_ind; [reflexivity | ].
  rewrite map_app; simpl map; rewrite !roll1_snoc; reflexivity.
Qed.

Lemma dot_translate (a b : Z) (u v : list Z) :
  length u = length v ->
  dot (map (fun z => z + a) u) (map (fun z => z + b) v)
  = dot u v + a * list_sum_Z v + b * list_sum_Z u
    + Z.of_nat (length u) * (a * b).
Proof.
  revert v; induction u as [ | x u IH]; intros [ | y v] H;
    try discriminate H.
  - cbn [map length list_sum_Z fold_right]; rewrite dot_nil_l; lia.
  - simpl map; rewrite !dot_cons, IH by (simpl in H; lia).
    unfold list_sum_Z; cbn [fold_right length]; lia.
Qed.

Lemma list_sum_Z_app (u v : list Z) :
  list_sum_Z (u ++ v) = list_sum_Z u + list_sum_Z v.
Proof. induction u as [ | x u IH]; simpl; [reflexivity | lia]. Qed.

Lemma list_sum_Z_roll1 (l : list Z) : list_sum_Z (roll1 l) = list_sum_Z l.
Proof.
  destruct l as [ | a l _] using rev_ind; [reflexivity | ].
  rewrite roll1_snoc, list_sum_Z_app; simpl; lia.
Qed.

Lemma cross_translate (dx dy : Z) (corner : contour) :
  cross (translate dx dy corner) = cross corner.
Proof.
  unfold cross, translate; rewrite !map_map; cbn [fst snd].
  rewrite <- (map_map fst (fun z => z + dx) corner).
  rewrite <- (map_map snd (fun z => z + dy) corner).
  rewrite !roll1_map.
  rewrite !dot_translate by (rewrite !length_map, length_roll1; reflexivity).
  rewrite <- !roll1_map, !list_sum_Z_roll1, !length_map; lia.
Qed.

(** X14: [get_size] does not depend on where the polygon lies: moving every
    point by the same amount leaves the size as it is. *)
Theorem get_size_translate (dx dy : Z) (corner : contour) :
  screen_checker.get_size (translate dx dy corner)
  = screen_checker.get_size corner.
Proof. rewrite !get_size_cross, cross_translate; reflexivity. Qed.
